(** * KalturaCaptionLoader: a shallow embedding of
      [LangChainKaltura/KalturaCaptionLoader.py] and its properties.

    The loader lists the media entries selected by a filter, lists the caption
    assets of each entry, keeps the assets that pass a language test and have
    the SRT format, downloads and parses each of them, and cuts the parsed
    captions into chunks of [chunkMinutes] minutes with a [while] loop over
    [captions.slice(...)].

    Layout: Python values and built-ins the code relies on ([Py]), the part of
    the subtitle library it calls ([Pysrt]), the Kaltura records ([Kaltura]),
    the loader itself ([Loader]), then lemmas and the properties. *)

From Stdlib Require Import ZArith List String Ascii Bool Lia.
From Stdlib Require Import Numbers.DecimalString.
Import ListNotations.

Local Open Scope string_scope.
Local Open Scope list_scope.
Local Open Scope Z_scope.

(** ** Python built-ins used by the loader *)

Module Py.

(** The exceptions that can leave the loader.  [RemoteError] stands for
    whatever an external collaborator (Kaltura client, HTTP transport)
    raises; the loader catches nothing. *)
Inductive exn : Type :=
| ValueError (msg : string)
| TypeError
| KeyError (key : string)
| IndexError
| UnicodeEncodeError
| RemoteError (what : string)
| OutsideModel.

(** Result of a call that can raise. *)
Inductive result (A : Type) : Type :=
| Ok (a : A)
| Err (e : exn).
Arguments Ok {A} a.
Arguments Err {A} e.

(** [str(n)] for an [int]. *)
Definition str_of_int (z : Z) : string :=
  NilZero.string_of_int (Z.to_int z).

(** ['%0<width>d' % n] for [n >= 0]. *)
Fixpoint zeros (n : nat) : string :=
  match n with
  | O => EmptyString
  | S n' => String "0" (zeros n')
  end.

Definition pad0 (width : nat) (z : Z) : string :=
  let s := str_of_int z in
  String.append (zeros (width - String.length s)) s.

(** [str.lower] for an ASCII string ([A-Z] to [a-z], the rest unchanged).
    Python's mapping of other characters is not modelled. *)
Definition lower_char (c : ascii) : ascii :=
  let n := nat_of_ascii c in
  if ((65 <=? n) && (n <=? 90))%nat then ascii_of_nat (n + 32) else c.

Fixpoint str_lower (s : string) : string :=
  match s with
  | EmptyString => EmptyString
  | String c r => String (lower_char c) (str_lower r)
  end.

(** [s[0:-n]]. *)
Definition drop_last (n : nat) (s : string) : string :=
  String.substring 0 (String.length s - n) s.

(** [sep.join(parts)]. *)
Definition join (sep : string) (parts : list string) : string :=
  String.concat sep parts.

(** [s.encode('ascii')] succeeds when every character is below 128. *)
Fixpoint is_ascii (s : string) : bool :=
  match s with
  | EmptyString => true
  | String c r => (nat_of_ascii c <? 128)%nat && is_ascii r
  end.

(** Truth value of a [str]. *)
Definition truthy (s : string) : bool :=
  negb (String.eqb s EmptyString).

(** *** [urlTemplate.format(mediaId=..., startSeconds=...)]

    The scanner of [str.format]: [{{] and [}}] are literal braces, a lone
    [}] is a [ValueError], [{name}] is looked up among the keyword
    arguments.  An empty field name, or one of at most nine ASCII digits,
    refers to a positional argument, of which the call has none
    ([IndexError]); any other unknown ASCII name is a [KeyError].
    Conversions ([!r]), format specifications ([:05d]), attribute and index
    access, nested fields, field names with non-ASCII characters and longer
    numeric field names are not modelled ([OutsideModel]): the constructor's
    documentation asks for the two plain fields only. *)

Definition is_digit (c : ascii) : bool :=
  let n := nat_of_ascii c in ((48 <=? n) && (n <=? 57))%nat.

Fixpoint all_digits (s : string) : bool :=
  match s with
  | EmptyString => true
  | String c r => is_digit c && all_digits r
  end.

Fixpoint has_char (p : ascii -> bool) (s : string) : bool :=
  match s with
  | EmptyString => false
  | String c r => p c || has_char p r
  end.

Definition field_syntax (c : ascii) : bool :=
  Ascii.eqb c "!" || Ascii.eqb c ":" || Ascii.eqb c "." || Ascii.eqb c "[".

Definition field_value (mediaId : string) (startSeconds : Z)
    (name : string) : result string :=
  if has_char field_syntax name || negb (is_ascii name)
  then Err OutsideModel
  else if String.eqb name "mediaId" then Ok mediaId
  else if String.eqb name "startSeconds" then Ok (str_of_int startSeconds)
  else if all_digits name then
    if (String.length name <=? 9)%nat then Err IndexError
    else Err OutsideModel
  else Err (KeyError name).

(** [field = Some acc]: inside a replacement field, [acc] read so far. *)
Fixpoint format_scan (mediaId : string) (startSeconds : Z)
    (field : option string) (s : string) : result string :=
  match s with
  | EmptyString =>
      match field with
      | None => Ok EmptyString
      | Some _ => Err (ValueError "expected '}' before end of string")
      end
  | String c r =>
      match field with
      | Some acc =>
          if Ascii.eqb c "}" then
            match field_value mediaId startSeconds acc with
            | Err e => Err e
            | Ok v =>
                match format_scan mediaId startSeconds None r with
                | Err e => Err e
                | Ok t => Ok (String.append v t)
                end
            end
          else if Ascii.eqb c "{" then Err OutsideModel
          else format_scan mediaId startSeconds
                 (Some (String.append acc (String c EmptyString))) r
      | None =>
          if Ascii.eqb c "{" then
            match r with
            | EmptyString =>
                Err (ValueError "Single '{' encountered in format string")
            | String c' r' =>
                if Ascii.eqb c' "{" then
                  match format_scan mediaId startSeconds None r' with
                  | Err e => Err e
                  | Ok t => Ok (String "{" t)
                  end
                else format_scan mediaId startSeconds (Some EmptyString) r
            end
          else if Ascii.eqb c "}" then
            match r with
            | String "}" r' =>
                match format_scan mediaId startSeconds None r' with
                | Err e => Err e
                | Ok t => Ok (String "}" t)
                end
            | _ =>
                Err (ValueError "Single '}' encountered in format string")
            end
          else
            match format_scan mediaId startSeconds None r with
            | Err e => Err e
            | Ok t => Ok (String c t)
            end
      end
  end.

Definition str_format (template mediaId : string) (startSeconds : Z)
    : result string :=
  format_scan mediaId startSeconds None template.

End Py.

(** ** pysrt: subtitle items, times, [slice] and [text] *)

Module Pysrt.

(** A [SubRipTime] is its [ordinal], a number of milliseconds. *)
Definition SubRipTime : Type := Z.

Definition SECONDS_RATIO : Z := 1000.
Definition MINUTES_RATIO : Z := SECONDS_RATIO * 60.
Definition HOURS_RATIO : Z := MINUTES_RATIO * 60.

(** [SubRipTime.coerce({'minutes': m})]. *)
Definition of_minutes (m : Z) : SubRipTime := m * MINUTES_RATIO.

Definition hours (t : SubRipTime) : Z := t / HOURS_RATIO.
Definition minutes (t : SubRipTime) : Z :=
  (t mod HOURS_RATIO) / MINUTES_RATIO.
Definition seconds (t : SubRipTime) : Z :=
  (t mod MINUTES_RATIO) / SECONDS_RATIO.
Definition milliseconds (t : SubRipTime) : Z := t mod SECONDS_RATIO.

(** [str(t)]: ['%02d:%02d:%02d,%03d'], a negative time printed as zero. *)
Definition time_str (t : SubRipTime) : string :=
  let t := if t <? 0 then 0 else t in
  String.append (Py.pad0 2 (hours t))
    (String.append ":" (String.append (Py.pad0 2 (minutes t))
      (String.append ":" (String.append (Py.pad0 2 (seconds t))
        (String.append "," (Py.pad0 3 (milliseconds t))))))).

Record SubRipItem : Type := mkItem {
  start : SubRipTime;
  end_ : SubRipTime;
  text : string
}.

(** [SubRipFile.slice(starts_after=a, ends_before=b)]: two filters in a row,
    both strict, the second one on the END of the item. *)
Definition slice (starts_after ends_before : SubRipTime)
    (data : list SubRipItem) : list SubRipItem :=
  filter (fun i => end_ i <? ends_before)
    (filter (fun i => starts_after <? start i) data).

(** [SubRipFile.text]. *)
Definition file_text (data : list SubRipItem) : string :=
  Py.join (String "010" EmptyString) (map text data).

End Pysrt.

(** ** The Kaltura records the loader reads and the external collaborators *)

Module Kaltura.

Inductive KalturaCaptionType : Type := SRT | DFXP | WEBVTT | CAP | SCC.

Definition caption_type_eqb (a b : KalturaCaptionType) : bool :=
  match a, b with
  | SRT, SRT | DFXP, DFXP | WEBVTT, WEBVTT | CAP, CAP | SCC, SCC => true
  | _, _ => false
  end.

Record KalturaCaptionAsset : Type := mkAsset {
  asset_id : string;
  languageCode : string;
  format : KalturaCaptionType
}.

Record KalturaMediaEntry : Type := mkEntry {
  entry_id : string;
  name : string
}.

Record KalturaMediaEntryFilter : Type := mkFilter {
  idEqual : option string;
  categoriesMatchAnd : option string
}.

Record KalturaClient : Type := mkClient {
  serviceUrl : option string;
  ks : string
}.

(** What the outside world answers.  Every remote call can raise. *)
Record Env : Type := mkEnv {
  startWidgetSession : KalturaClient -> string -> Py.result string;
  appToken_startSession :
    KalturaClient -> string -> string -> Z -> Py.result string;
  sha512_hexdigest : string -> string;
  media_list :
    KalturaClient -> KalturaMediaEntryFilter ->
    Py.result (list KalturaMediaEntry);
  captionAsset_list :
    KalturaClient -> string -> Py.result (list KalturaCaptionAsset);
  captionAsset_getUrl : KalturaClient -> string -> Py.result string;
  requests_get_text : string -> Py.result string;
  from_string : string -> list Pysrt.SubRipItem
}.

(** The calls made to the collaborators, in the order they are made. *)
Inductive call : Type :=
| CallMediaList (f : KalturaMediaEntryFilter)
| CallCaptionAssetList (entryId : string)
| CallGetUrl (assetId : string)
| CallRequestsGet (url : string)
| CallFromString (source : string).

End Kaltura.

(** ** The loader *)

Module Loader.
Import Py Pysrt Kaltura.

Definition EXPIRY_SECONDS_DEFAULT : Z := 86400.
Definition CHUNK_MINUTES_DEFAULT : Z := 2.
Definition LANGUAGES_DEFAULT : list string :=
  ["en-us"; "en"; "en-ca"; "en-gb"; "en-ie"; "en-au"; "en-nz"; "en-bz";
   "en-jm"; "en-ph"; "en-tt"; "en-za"; "en-zw"].

Inductive FilterType : Type := CATEGORY | MEDIAID.

(** The [filterType] argument as passed: a [FilterType] member or a value
    of another type. *)
Inductive filterType_arg : Type :=
| IsFilterType (t : FilterType)
| NotFilterType.

Record Document : Type := mkDocument {
  page_content : string;
  source : string;
  filename : string;
  media_id : string;
  timestamp : string;
  caption_id : string;
  language_code : string;
  caption_format : string
}.

(** [self].  [languages] is [None] or the iterator [map(str.lower, languages)]:
    an iterator is consumed by what reads it, so the field holds the items
    of the sequence it has not yielded yet. *)
Record KalturaCaptionLoader : Type := mkLoader {
  client : KalturaClient;
  mediaFilter : option KalturaMediaEntryFilter;
  chunkMinutes : Z;
  urlTemplate : string;
  languages : option (list string)
}.

Definition setMediaEntry (mediaEntryId : string) : KalturaMediaEntryFilter :=
  mkFilter (Some mediaEntryId) None.

Definition setMediaCategory (categoryText : string)
    : KalturaMediaEntryFilter :=
  mkFilter None (Some categoryText).

(** [x in it] for an iterator [it] over [map(str.lower, items)]: items are
    pulled until one equals [x]; the pulled items are gone. *)
Fixpoint iter_contains (x : string) (items : list string)
    : bool * list string :=
  match items with
  | [] => (false, [])
  | e :: rest =>
      if String.eqb x (str_lower e) then (true, rest)
      else iter_contains x rest
  end.

(** Outcome of a run: a value, an exception, or a loop still running when
    the fuel ran out. *)
Inductive outcome (A : Type) : Type :=
| Return (a : A)
| Raise (e : exn)
| OutOfFuel.
Arguments Return {A} a.
Arguments Raise {A} e.
Arguments OutOfFuel {A}.

Record State : Type := mkState {
  self : KalturaCaptionLoader;
  calls : list call
}.

Definition M (A : Type) : Type := State -> outcome A * State.

Definition ret {A} (a : A) : M A := fun st => (Return a, st).

Definition bind {A B} (m : M A) (k : A -> M B) : M B :=
  fun st =>
    match m st with
    | (Return a, st') => k a st'
    | (Raise e, st') => (Raise e, st')
    | (OutOfFuel, st') => (OutOfFuel, st')
    end.

Notation "x <- m ;; k" := (bind m (fun x => k))
  (at level 61, m at next level, right associativity).

Definition lift {A} (o : outcome A) : M A := fun st => (o, st).

(** A call to a collaborator: logged, then its answer returned or raised. *)
Definition remote {A} (c : call) (answer : KalturaClient -> result A)
    : M A :=
  fun st =>
    let st' := mkState (self st) (calls st ++ [c]) in
    match answer (client (self st)) with
    | Ok a => (Return a, st')
    | Err e => (Raise e, st')
    end.

(** The message of the [urlTemplate] check: the two adjacent literals of
    the source, joined as Python joins them. *)
Definition urlTemplate_message : string :=
  String.append "urlFormat must be specified, with fields for"
    (String "034" (String.append "{mediaId}"
      (String "034" (String.append " and "
        (String "034" (String.append "{startSeconds}"
          (String "034" "."))))))).

Section WithEnv.
Variable env : Env.

(** *** [__init__] *)
Definition init (partnerId appTokenId appTokenValue : string)
    (filterType : filterType_arg) (filterValue urlTemplate_ : string)
    (languages_ : option (list string)) (expirySeconds chunkMinutes_ : Z)
    (kalturaApiBaseUrl : option string)
    : result KalturaCaptionLoader :=
  if negb (truthy partnerId && truthy appTokenId && truthy appTokenValue)
  then Err (ValueError "partnerId and appToken* parameters must be specified")
  else
  match filterType with
  | NotFilterType => Err TypeError
  | IsFilterType ft =>
    if negb (truthy filterValue)
    then Err (ValueError "filterValue must be specified")
    else if negb (truthy urlTemplate_)
    then Err (ValueError urlTemplate_message)
    else
    let client0 := mkClient kalturaApiBaseUrl EmptyString in
    match startWidgetSession env client0 (String.append "_" partnerId) with
    | Err e => Err e
    | Ok widget_ks =>
      if negb (is_ascii (String.append widget_ks appTokenValue))
      then Err UnicodeEncodeError
      else
      let appTokenHash :=
        sha512_hexdigest env (String.append widget_ks appTokenValue) in
      let client1 := mkClient kalturaApiBaseUrl widget_ks in
      match appToken_startSession env client1 appTokenId appTokenHash
              expirySeconds with
      | Err e => Err e
      | Ok app_ks =>
        let client2 := mkClient kalturaApiBaseUrl app_ks in
        let mediaFilter_ :=
          match ft with
          | CATEGORY => setMediaCategory filterValue
          | MEDIAID => setMediaEntry filterValue
          end in
        Ok (mkLoader client2 (Some mediaFilter_) chunkMinutes_
              urlTemplate_ languages_)
      end
    end
  end.

(** *** The chunk loop of [fetchMediaCaption] (lines 199-218) *)

(** [captions.slice(starts_after={'minutes': start},
                    ends_before={'minutes': start + chunkMinutes})]
    with [start = chunkMinutes * index]. *)
Definition captionsSection (chunkMinutes_ : Z)
    (captions : list SubRipItem) (index : Z) : list SubRipItem :=
  let start_ := chunkMinutes_ * index in
  slice (of_minutes start_) (of_minutes (start_ + chunkMinutes_)) captions.

Definition make_document (urlTemplate_ : string)
    (mediaEntry : KalturaMediaEntry) (captionAsset : KalturaCaptionAsset)
    (section : list SubRipItem) (timestamp_ : SubRipTime)
    : result Document :=
  match str_format urlTemplate_ (entry_id mediaEntry)
          (timestamp_ / 1000) with
  | Err e => Err e
  | Ok source_ =>
      Ok (mkDocument (file_text section) source_ (name mediaEntry)
            (entry_id mediaEntry) (drop_last 4 (time_str timestamp_))
            (asset_id captionAsset) (languageCode captionAsset) "SRT")
  end.

Fixpoint chunk_while (fuel : nat) (chunkMinutes_ : Z)
    (urlTemplate_ : string) (mediaEntry : KalturaMediaEntry)
    (captionAsset : KalturaCaptionAsset) (captions : list SubRipItem)
    (index : Z) (captionDocuments : list Document)
    : outcome (list Document) :=
  match fuel with
  | O => OutOfFuel
  | S fuel' =>
      match captionsSection chunkMinutes_ captions index with
      | [] => Return captionDocuments
      | first :: more =>
          match make_document urlTemplate_ mediaEntry captionAsset
                  (first :: more) (start first) with
          | Err e => Raise e
          | Ok doc =>
              chunk_while fuel' chunkMinutes_ urlTemplate_ mediaEntry
                captionAsset captions (index + 1)
                (captionDocuments ++ [doc])
          end
      end
  end.

(** *** [fetchMediaCaption] *)

(** The test of line 184: [true] when the asset is skipped.  The
    membership test reads [self.languages], which advances it. *)
Definition language_skip (captionAsset : KalturaCaptionAsset) : M bool :=
  fun st =>
    match languages (self st) with
    | None => (Return false, st)
    | Some items =>
        let '(found, items') :=
          iter_contains (str_lower (languageCode captionAsset)) items in
        let l := self st in
        (Return (negb found),
         mkState (mkLoader (client l) (mediaFilter l) (chunkMinutes l)
                    (urlTemplate l) (Some items'))
                 (calls st))
    end.

Definition get_self : M KalturaCaptionLoader :=
  fun st => (Return (self st), st).

Definition chunk_asset (fuel : nat) (mediaEntry : KalturaMediaEntry)
    (captionAsset : KalturaCaptionAsset)
    (captionDocuments : list Document) : M (list Document) :=
  captionUrl <- remote (CallGetUrl (asset_id captionAsset))
                  (fun c => captionAsset_getUrl env c
                              (asset_id captionAsset)) ;;
  captionSource <- remote (CallRequestsGet captionUrl)
                     (fun _ => requests_get_text env captionUrl) ;;
  captions <- remote (CallFromString captionSource)
                (fun _ => Ok (from_string env captionSource)) ;;
  l <- get_self ;;
  lift (chunk_while fuel (chunkMinutes l) (urlTemplate l) mediaEntry
          captionAsset captions 0 captionDocuments).

Fixpoint for_captionAssets (fuel : nat) (mediaEntry : KalturaMediaEntry)
    (captionAssets : list KalturaCaptionAsset)
    (captionDocuments : list Document) : M (list Document) :=
  match captionAssets with
  | [] => ret captionDocuments
  | captionAsset :: rest =>
      skip <- language_skip captionAsset ;;
      if skip then for_captionAssets fuel mediaEntry rest captionDocuments
      else if caption_type_eqb (format captionAsset) SRT then
        docs <- chunk_asset fuel mediaEntry captionAsset
                  captionDocuments ;;
        for_captionAssets fuel mediaEntry rest docs
      else for_captionAssets fuel mediaEntry rest captionDocuments
  end.

Definition fetchMediaCaption (fuel : nat) (mediaEntry : KalturaMediaEntry)
    : M (list Document) :=
  captionAssets <- remote (CallCaptionAssetList (entry_id mediaEntry))
                     (fun c => captionAsset_list env c
                                 (entry_id mediaEntry)) ;;
  for_captionAssets fuel mediaEntry captionAssets [].

(** *** [load] *)

Fixpoint for_mediaEntries (fuel : nat)
    (mediaEntries : list KalturaMediaEntry) (documents : list Document)
    : M (list Document) :=
  match mediaEntries with
  | [] => ret documents
  | mediaEntry :: rest =>
      docs <- fetchMediaCaption fuel mediaEntry ;;
      for_mediaEntries fuel rest (documents ++ docs)
  end.

Definition load (fuel : nat) : M (list Document) :=
  l <- get_self ;;
  match mediaFilter l with
  | None => lift (Raise (ValueError "Media filter is not defined"))
  | Some f =>
      mediaEntries <- remote (CallMediaList f)
                        (fun c => media_list env c f) ;;
      for_mediaEntries fuel mediaEntries []
  end.

End WithEnv.

End Loader.

(** ** The windows of the chunk loop *)

Module Windows.
Import Py Pysrt Kaltura Loader.

(** The values [captionsSection] takes in the iterations of the [while]
    loop whose body runs, in order: the cue sets of the emitted chunks. *)
Fixpoint sections (fuel : nat) (chunkMinutes_ : Z)
    (captions : list SubRipItem) (index : Z)
    : option (list (list SubRipItem)) :=
  match fuel with
  | O => None
  | S fuel' =>
      match captionsSection chunkMinutes_ captions index with
      | [] => Some []
      | first :: more =>
          match sections fuel' chunkMinutes_ captions (index + 1) with
          | None => None
          | Some later => Some ((first :: more) :: later)
          end
      end
  end.

Definition first_start (section : list SubRipItem) : SubRipTime :=
  match section with
  | [] => 0
  | first :: _ => start first
  end.

(** The documents the loop body builds for a list of cue sets, appended to
    [captionDocuments]; the first failing [format] call raises. *)
Fixpoint emit (urlTemplate_ : string) (mediaEntry : KalturaMediaEntry)
    (captionAsset : KalturaCaptionAsset) (secs : list (list SubRipItem))
    (captionDocuments : list Document) : outcome (list Document) :=
  match secs with
  | [] => Return captionDocuments
  | sec :: later =>
      match make_document urlTemplate_ mediaEntry captionAsset sec
              (first_start sec) with
      | Err e => Raise e
      | Ok doc =>
          emit urlTemplate_ mediaEntry captionAsset later
            (captionDocuments ++ [doc])
      end
  end.

(** The last start offset of a track (0 for an empty one). *)
Definition last_start (captions : list SubRipItem) : Z :=
  fold_right Z.max 0 (map start captions).

(** Iterations that suffice for a positive chunk duration. *)
Definition enough_fuel (chunkMinutes_ : Z) (captions : list SubRipItem)
    : nat :=
  Z.to_nat (last_start captions / of_minutes chunkMinutes_) + 2.

(** Window indices [index, index + 1, ..., index + k - 1]. *)
Fixpoint indices (index : Z) (k : nat) : list Z :=
  match k with
  | O => []
  | S k' => index :: indices (index + 1) k'
  end.

End Windows.

Import Py Pysrt Kaltura Loader Windows.

(** ** Specification readings and example data *)

Definition demo_template : string :=
  "https://x.test/{mediaId}?t={startSeconds}".
Definition demo_entry : KalturaMediaEntry := mkEntry "0_abc123" "Lecture 1".
Definition demo_asset : KalturaCaptionAsset := mkAsset "1_cap" "en" SRT.

(** Cues at 0:05, 1:50 and 2:30, three seconds each. *)
Definition three_cue_track : list SubRipItem :=
  [mkItem 5000 8000 "a"; mkItem 110000 113000 "b"; mkItem 150000 153000 "c"].

(** One cue from 1:50 to 2:05. *)
Definition boundary_track : list SubRipItem :=
  [mkItem 110000 125000 "spans the boundary"].

(** One cue that starts at 0:00.000. *)
Definition zero_cue : SubRipItem := mkItem 0 1500 "Welcome.".
Definition zero_track : list SubRipItem := [zero_cue].

(** Cues at 0:30 and 3:10, two seconds each. *)
Definition two_window_track : list SubRipItem :=
  [mkItem 30000 32000 "first"; mkItem 190000 192000 "second"].

(** Cues at 0:30 and 5:00, two seconds each: nothing between 2:00 and 4:00. *)
Definition gap_track : list SubRipItem :=
  [mkItem 30000 32000 "before the gap"; mkItem 300000 302000 "after the gap"].

(** The cue set of window [i] in the specification's words: the cues whose
    start offset [s] satisfies [i*D <= s < (i+1)*D]. *)
Definition spec_window (D : Z) (captions : list SubRipItem) (i : Z)
    : list SubRipItem :=
  filter (fun c => (of_minutes (i * D) <=? start c)
                   && (start c <? of_minutes ((i + 1) * D))) captions.


(** The specification's reading of the loop: every non-empty window up to the
    last start offset yields a chunk, whatever lies before it. *)
Definition continues_past_gaps (D : Z) (captions : list SubRipItem)
    (secs : list (list SubRipItem)) : Prop :=
  forall i, 0 <= i -> of_minutes (i * D) <= last_start captions ->
            captionsSection D captions i <> [] ->
            In (captionsSection D captions i) secs.

(** A world in which every remote call succeeds: one media entry with two
    SRT caption assets, both tagged [en], each holding [three_cue_track]. *)
Definition demo_env : Env :=
  mkEnv (fun _ _ => Ok "widget-ks")
        (fun _ _ _ _ => Ok "app-ks")
        (fun _ => "0f3a")
        (fun _ _ => Ok [demo_entry])
        (fun _ _ => Ok [mkAsset "1_a" "en" SRT; mkAsset "1_b" "en" SRT])
        (fun _ assetId => Ok (String.append "https://cdn.test/" assetId))
        (fun url => Ok (String.append "srt of " url))
        (fun _ => three_cue_track).

Definition demo_client : KalturaClient := mkClient None "app-ks".

Definition with_chunkMinutes (m : Z) (l : KalturaCaptionLoader)
    : KalturaCaptionLoader :=
  mkLoader (client l) (mediaFilter l) m (urlTemplate l) (languages l).

(** The language test in the specification's words: with an allow-list, an
    asset is kept when its lower-cased code is in the lower-cased list;
    without one ([None]) every asset is kept. *)
Definition spec_language_kept (allowed : option (list string))
    (captionAsset : KalturaCaptionAsset) : bool :=
  match allowed with
  | None => true
  | Some codes =>
      existsb (String.eqb (str_lower (languageCode captionAsset)))
        (map str_lower codes)
  end.

Definition set_languages (items : option (list string))
    (st : State) : State :=
  mkState (mkLoader (client (self st)) (mediaFilter (self st))
             (chunkMinutes (self st)) (urlTemplate (self st)) items)
          (calls st).

Definition demo_loader : KalturaCaptionLoader :=
  mkLoader demo_client (Some (setMediaEntry "0_abc123")) 2 demo_template None.

Definition logged (st : State) (cs : list call) : State :=
  mkState (self st) (calls st ++ cs).

(** The specification's reading: when location resolution returns no
    location (an empty string), the fetch is not attempted. *)
Definition location_checked_before_fetch (env : Env) (fuel : nat)
    (mediaEntry : KalturaMediaEntry) (captionAsset : KalturaCaptionAsset)
    (docs : list Document) (st : State) : Prop :=
  captionAsset_getUrl env (client (self st)) (asset_id captionAsset)
    = Ok EmptyString ->
  ~ In (CallRequestsGet EmptyString)
       (calls (snd (chunk_asset env fuel mediaEntry captionAsset docs st))).

(** A world where location resolution answers with an empty string and the
    transport refuses a URL without a scheme. *)
Definition no_location_env : Env :=
  mkEnv (fun _ _ => Ok "widget-ks")
        (fun _ _ _ _ => Ok "app-ks")
        (fun _ => "0f3a")
        (fun _ _ => Ok [demo_entry])
        (fun _ _ => Ok [demo_asset])
        (fun _ _ => Ok EmptyString)
        (fun url => if String.eqb url EmptyString
                    then Err (RemoteError "MissingSchema")
                    else Ok "srt")
        (fun _ => three_cue_track).

(** A template as the constructor's documentation asks for it: literal text
    and the two fields, in any order.  In the text of the template a literal
    brace is written twice. *)
Inductive piece : Type :=
| Lit (s : string)
| MediaIdField
| StartSecondsField.

Fixpoint escape_braces (s : string) : string :=
  match s with
  | EmptyString => EmptyString
  | String c r =>
      if Ascii.eqb c "{" then String "{" (String "{" (escape_braces r))
      else if Ascii.eqb c "}" then String "}" (String "}" (escape_braces r))
      else String c (escape_braces r)
  end.

Definition piece_text (p : piece) : string :=
  match p with
  | Lit s => escape_braces s
  | MediaIdField => "{mediaId}"
  | StartSecondsField => "{startSeconds}"
  end.

Definition piece_value (mediaId : string) (startSeconds : Z) (p : piece)
    : string :=
  match p with
  | Lit s => s
  | MediaIdField => mediaId
  | StartSecondsField => str_of_int startSeconds
  end.

Fixpoint template_text (ps : list piece) : string :=
  match ps with
  | [] => EmptyString
  | p :: rest => String.append (piece_text p) (template_text rest)
  end.

(** The template with the two values put in place of the fields. *)
Fixpoint substituted (mediaId : string) (startSeconds : Z) (ps : list piece)
    : string :=
  match ps with
  | [] => EmptyString
  | p :: rest =>
      String.append (piece_value mediaId startSeconds p)
        (substituted mediaId startSeconds rest)
  end.

(** Cues at 0:10 and 2:05.7. *)
Definition url_track : list SubRipItem :=
  [mkItem 10000 12000 "intro"; mkItem 125700 128000 "later"].

Definition demo_pieces : list piece :=
  [Lit "https://x.test/"; MediaIdField; Lit "?t="; StartSecondsField].

(** ** Further parts of the loader *)

(** [str.upper] for an ASCII string.  On other strings Python's mapping
    is not this one; what uses [str_upper] asks for an ASCII argument. *)
Definition upper_char (c : ascii) : ascii :=
  let n := nat_of_ascii c in
  if ((97 <=? n) && (n <=? 122))%nat then ascii_of_nat (n - 32) else c.

Fixpoint str_upper (s : string) : string :=
  match s with
  | EmptyString => EmptyString
  | String c r => String (upper_char c) (str_upper r)
  end.

Definition FilterType_name (t : FilterType) : string :=
  match t with
  | CATEGORY => "CATEGORY"
  | MEDIAID => "MEDIAID"
  end.

(** [FilterType.__members__.get(name)]. *)
Definition FilterType_members_get (member : string) : option FilterType :=
  if String.eqb member "CATEGORY" then Some CATEGORY
  else if String.eqb member "MEDIAID" then Some MEDIAID
  else None.

(** [FilterType._missing_(key)] for an ASCII [str] key: what
    [FilterType(key)] evaluates to when [key] is not the value of a member.
    [cls(value)] on a member is that member.  A key with non-ASCII
    characters is outside the model. *)
Definition FilterType_missing (key : string) : result FilterType :=
  if negb (is_ascii key) then Err OutsideModel
  else
    match FilterType_members_get (str_upper key) with
    | None =>
        Err (ValueError
               (String.append "Invalid key "
                  (String "034"
                     (String.append key
                        (String "034" " for FilterType")))))
    | Some value => Ok value
    end.

(** The methods [setMediaEntry] and [setMediaCategory] as they act on
    [self]: a fresh filter replaces [self.mediaFilter]. *)
Definition self_setMediaEntry (mediaEntryId : string)
    (l : KalturaCaptionLoader) : KalturaCaptionLoader :=
  mkLoader (client l) (Some (setMediaEntry mediaEntryId)) (chunkMinutes l)
    (urlTemplate l) (languages l).

Definition self_setMediaCategory (categoryText : string)
    (l : KalturaCaptionLoader) : KalturaCaptionLoader :=
  mkLoader (client l) (Some (setMediaCategory categoryText)) (chunkMinutes l)
    (urlTemplate l) (languages l).

(** The filter [__init__] builds for a filter type and value. *)
Definition filter_for (ft : FilterType) (filterValue : string)
    : KalturaMediaEntryFilter :=
  match ft with
  | CATEGORY => mkFilter None (Some filterValue)
  | MEDIAID => mkFilter (Some filterValue) None
  end.

(** Number of [captionAsset.getUrl] calls in a log. *)
Definition is_getUrl (c : call) : bool :=
  match c with
  | CallGetUrl _ => true
  | _ => false
  end.

Definition fetches (cs : list call) : nat :=
  List.length (filter is_getUrl cs).

(** [st'] can follow [st] in a run: the configuration of [self] other than
    the language iterator is the same, and the log has only grown. *)
Definition follows (st st' : State) : Prop :=
  client (self st') = client (self st)
  /\ mediaFilter (self st') = mediaFilter (self st)
  /\ chunkMinutes (self st') = chunkMinutes (self st)
  /\ urlTemplate (self st') = urlTemplate (self st)
  /\ (languages (self st) = None -> languages (self st') = None)
  /\ exists cs, calls st' = calls st ++ cs.

(** [hh:mm:ss] of a time. *)
Definition hms (t : SubRipTime) : string :=
  String.append (pad0 2 (hours t))
    (String.append ":" (String.append (pad0 2 (minutes t))
      (String.append ":" (pad0 2 (seconds t))))).

Definition no_item : SubRipItem := mkItem 0 0 EmptyString.

(** A computation that every state [follows]. *)
Definition keeps {A : Type} (m : M A) : Prop :=
  forall st, follows st (snd (m st)).

(** With an allow-list, the [getUrl] calls made between [st] and [st'] are
    paid for by items pulled from the language iterator. *)
Definition within_budget (st st' : State) : Prop :=
  forall items,
    languages (self st) = Some items ->
    exists items',
      languages (self st') = Some items'
      /\ (fetches (calls st') + List.length items'
          <= fetches (calls st) + List.length items)%nat.

Definition frugal {A : Type} (m : M A) : Prop :=
  forall st, within_budget st (snd (m st)).

(** A document built for caption asset [a] of media entry [e]. *)
Definition doc_from (e : KalturaMediaEntry) (a : KalturaCaptionAsset)
    (d : Document) : Prop :=
  media_id d = entry_id e /\ filename d = name e
  /\ caption_id d = asset_id a /\ language_code d = languageCode a
  /\ caption_format d = "SRT".

(** The documents gathered before a loop put in front of what it returns. *)
Definition prepend_o (docs : list Document) (o : outcome (list Document))
    : outcome (list Document) :=
  match o with
  | Return new => Return (docs ++ new)
  | Raise x => Raise x
  | OutOfFuel => OutOfFuel
  end.

Definition prepend (docs : list Document)
    (r : outcome (list Document) * State)
    : outcome (list Document) * State :=
  (prepend_o docs (fst r), snd r).

(** A world with two media entries where location resolution fails. *)
Definition second_entry : KalturaMediaEntry := mkEntry "0_xyz789" "Lecture 2".

Definition broken_env : Env :=
  mkEnv (fun _ _ => Ok "widget-ks")
        (fun _ _ _ _ => Ok "app-ks")
        (fun _ => "0f3a")
        (fun _ _ => Ok [demo_entry; second_entry])
        (fun _ _ => Ok [demo_asset])
        (fun _ _ => Err (RemoteError "ENTRY_ID_NOT_FOUND"))
        (fun url => Ok (String.append "srt of " url))
        (fun _ => three_cue_track).

(** Where a document of [load] comes from: an SRT caption asset [a] listed
    for a media entry [e] of [entries]. *)
Definition provenance (env : Env) (c : KalturaClient)
    (entries : list KalturaMediaEntry) (d : Document) : Prop :=
  exists e assets a,
    In e entries
    /\ captionAsset_list env c (entry_id e) = Ok assets
    /\ In a assets /\ format a = SRT /\ doc_from e a d.

Definition is_brace (c : ascii) : bool :=
  Ascii.eqb c "{" || Ascii.eqb c "}".

(** What [format] raises for an ASCII field that is neither [mediaId] nor
    [startSeconds]: an empty field or one of at most nine digits is a
    positional index. *)
Definition unknown_field_error (field : string) : exn :=
  if all_digits field then IndexError else KeyError field.

(** A URL template with the replacement field [{field}] after [before]. *)
Definition template_with_field (before field rest : string) : string :=
  String.append (escape_braces before)
    (String "{" (String.append field (String "}" rest))).

(** The [getUrl] calls for the SRT assets of a listing, in its order. *)
Definition srt_getUrl_calls (assets : list KalturaCaptionAsset) : list call :=
  map (fun a => CallGetUrl (asset_id a))
    (filter (fun a => caption_type_eqb (format a) SRT) assets).

(** A world whose caption file holds one cue, starting at 0:00.000. *)
Definition zero_env : Env :=
  mkEnv (fun _ _ => Ok "widget-ks")
        (fun _ _ _ _ => Ok "app-ks")
        (fun _ => "0f3a")
        (fun _ _ => Ok [demo_entry])
        (fun _ _ => Ok [demo_asset])
        (fun _ assetId => Ok (String.append "https://cdn.test/" assetId))
        (fun url => Ok (String.append "srt of " url))
        (fun _ => zero_track).

(** The specification's reading of the format test: an asset contributes
    chunks when the documents returned for it alone are not empty. *)
Definition contributes_chunks (env : Env) (fuel : nat)
    (e : KalturaMediaEntry) (a : KalturaCaptionAsset) (st : State) : Prop :=
  exists r st' d,
    for_captionAssets env fuel e [a] [] st = (Return r, st') /\ In d r.

(** [doc] is the chunk of the cue set [sec]: its text is the texts of the
    cues joined by a newline, its timestamp and the seconds of its source
    URL are those of the start of the first cue. *)
Definition chunk_of (tmpl : string) (e : KalturaMediaEntry)
    (sec : list SubRipItem) (doc : Document) : Prop :=
  exists first more,
    sec = first :: more
    /\ page_content doc
       = Py.join (String "010" EmptyString) (map text (first :: more))
    /\ timestamp doc = drop_last 4 (time_str (start first))
    /\ str_format tmpl (entry_id e) (start first / 1000) = Ok (source doc).

(** The specification's reading of the emitted chunks: every window with a
    non-empty selection has its chunk among the documents. *)
Definition every_nonempty_window_emitted (D : Z)
    (captions : list SubRipItem) (tmpl : string) (e : KalturaMediaEntry)
    (docs : list Document) : Prop :=
  forall i, 0 <= i -> captionsSection D captions i <> [] ->
            exists doc, In doc docs
                        /\ chunk_of tmpl e (captionsSection D captions i) doc.

(** The selections of windows [0 .. k-1]. *)
Definition windows_upto (D : Z) (captions : list SubRipItem) (k : nat)
    : list (list SubRipItem) :=
  map (captionsSection D captions) (indices 0 k).

(** ** Lemmas on [slice] and the loop *)

Section WindowFacts.
Variable D : Z.
Variable captions : list SubRipItem.

Lemma of_minutes_eq (m : Z) : of_minutes m = m * 60000.
Proof. reflexivity. Qed.

Lemma slice_as_one_filter (a b : SubRipTime) (data : list SubRipItem) :
  slice a b data =
  filter (fun i => (a <? start i) && (end_ i <? b)) data.
Proof.
  unfold slice. induction data as [|x xs IH]; simpl; [reflexivity|].
  destruct (a <? start x); simpl; [|exact IH].
  destruct (end_ x <? b); simpl; now rewrite IH.
Qed.

Lemma captionsSection_In (i : Z) (c : SubRipItem) :
  In c (captionsSection D captions i) <->
  In c captions /\ D * i * 60000 < start c /\ end_ c < (D * i + D) * 60000.
Proof.
  unfold captionsSection. rewrite slice_as_one_filter, filter_In.
  rewrite !of_minutes_eq, andb_true_iff, !Z.ltb_lt. tauto.
Qed.

Lemma sections_shape (fuel : nat) :
  forall index secs,
    sections fuel D captions index = Some secs ->
    secs = map (captionsSection D captions) (indices index (List.length secs))
    /\ Forall (fun s => s <> []) secs
    /\ captionsSection D captions (index + Z.of_nat (List.length secs)) = [].
Proof.
  induction fuel as [|fuel IH]; intros index secs H; simpl in H;
    [discriminate|].
  destruct (captionsSection D captions index) as [|f more] eqn:E.
  - injection H as <-. simpl. rewrite Z.add_0_r. auto.
  - destruct (sections fuel D captions (index + 1)) as [later|] eqn:L;
      [|discriminate].
    injection H as <-. destruct (IH _ _ L) as (Hm & Hn & He).
    simpl List.length. simpl indices. simpl map. rewrite E, <- Hm.
    repeat split.
    + constructor; [discriminate|exact Hn].
    + rewrite <- He. f_equal. lia.
Qed.

Lemma nth_indices (k : nat) :
  forall index n, (n < k)%nat ->
    nth n (indices index k) 0 = index + Z.of_nat n.
Proof.
  induction k as [|k IH]; intros index n Hn; [lia|].
  destruct n as [|n]; simpl; [lia|].
  rewrite IH by lia. lia.
Qed.

Lemma length_indices (k : nat) :
  forall index, List.length (indices index k) = k.
Proof. induction k; intros; simpl; [reflexivity|now rewrite IHk]. Qed.

Lemma sections_nth (fuel : nat) (index : Z) secs (n : nat) :
  sections fuel D captions index = Some secs ->
  (n < List.length secs)%nat ->
  nth n secs [] = captionsSection D captions (index + Z.of_nat n)
  /\ nth n secs [] <> [].
Proof.
  intros H Hn. destruct (sections_shape _ _ _ H) as (Hm & Hne & _).
  split.
  - rewrite Hm at 1.
    rewrite (nth_indep _ [] (captionsSection D captions 0))
      by (rewrite length_map, length_indices; exact Hn).
    rewrite map_nth. f_equal. apply nth_indices. exact Hn.
  - rewrite Forall_forall in Hne. apply Hne. apply nth_In. exact Hn.
Qed.

(** The loop stops as soon as it meets an empty window. *)
Lemma sections_total (fuel : nat) :
  forall index j,
    index <= j < index + Z.of_nat fuel ->
    captionsSection D captions j = [] ->
    exists secs, sections fuel D captions index = Some secs.
Proof.
  induction fuel as [|fuel IH]; intros index j Hj He; [lia|].
  simpl. destruct (captionsSection D captions index) as [|f more] eqn:E.
  - eauto.
  - assert (j <> index) by (intros ->; congruence).
    destruct (IH (index + 1) j) as [later Hl]; [lia|exact He|].
    rewrite Hl. eauto.
Qed.

Lemma start_le_last (c : SubRipItem) :
  In c captions -> start c <= last_start captions.
Proof.
  unfold last_start. induction captions as [|x xs IH]; simpl; [tauto|].
  intros [->|H]; [lia|]. specialize (IH H). lia.
Qed.

Lemma last_start_nonneg : 0 <= last_start captions.
Proof.
  unfold last_start. induction captions as [|x xs IH]; simpl; lia.
Qed.

(** With a positive duration the window after the last start is empty. *)
Lemma window_past_end_empty :
  0 < D ->
  captionsSection D captions (last_start captions / of_minutes D + 1) = [].
Proof.
  intros HD.
  destruct (captionsSection D captions _) as [|c more] eqn:E; [reflexivity|].
  exfalso.
  assert (Hin : In c (captionsSection D captions
                        (last_start captions / of_minutes D + 1)))
    by (rewrite E; now left).
  apply captionsSection_In in Hin. destruct Hin as (Hc & Hlo & _).
  apply start_le_last in Hc.
  rewrite of_minutes_eq in Hlo.
  pose proof (Z.mul_succ_div_gt (last_start captions) (D * 60000)
                ltac:(lia)) as Hgt.
  nia.
Qed.

Lemma sections_terminate (fuel : nat) :
  0 < D -> (enough_fuel D captions <= fuel)%nat ->
  exists secs, sections fuel D captions 0 = Some secs.
Proof.
  intros HD Hf.
  apply (sections_total fuel 0 (last_start captions / of_minutes D + 1));
    [|now apply window_past_end_empty].
  unfold enough_fuel in Hf.
  pose proof last_start_nonneg.
  assert (0 <= last_start captions / of_minutes D)
    by (apply Z.div_pos; [assumption|rewrite of_minutes_eq; lia]).
  lia.
Qed.

End WindowFacts.

Section LoopFacts.
Variables (D : Z) (urlTemplate_ : string) (mediaEntry : KalturaMediaEntry)
          (captionAsset : KalturaCaptionAsset)
          (captions : list SubRipItem).

(** The loop builds one document per cue set, in order. *)
Lemma chunk_while_emit (fuel : nat) :
  forall index secs docs,
    sections fuel D captions index = Some secs ->
    chunk_while fuel D urlTemplate_ mediaEntry captionAsset captions
      index docs
    = emit urlTemplate_ mediaEntry captionAsset secs docs.
Proof.
  induction fuel as [|fuel IH]; intros index secs docs H; simpl in H;
    [discriminate|].
  simpl. destruct (captionsSection D captions index) as [|f more] eqn:E.
  - injection H as <-. reflexivity.
  - destruct (sections fuel D captions (index + 1)) as [later|] eqn:L;
      [|discriminate].
    injection H as <-. simpl.
    destruct (make_document _ _ _ _ _); [|reflexivity].
    now apply IH.
Qed.

End LoopFacts.

(** ** Which cues a window selects *)

(** A cue from 1:50 to 2:05 starts inside window 0 of a two-minute chunking
    and ends after it: the specification's window holds it, [slice] drops it. *)
Lemma captionsSection_differs_from_spec_window :
  0 < 2 /\ 0 <= 0 /\
  spec_window 2 boundary_track 0 = boundary_track /\
  captionsSection 2 boundary_track 0 = [] /\
  captionsSection 2 boundary_track 0 <> spec_window 2 boundary_track 0.
Proof.
  repeat split; try lia; try reflexivity. vm_compute. discriminate.
Qed.

(** C3 (as the code has it): the cue set of window [i] is, in track order,
    the cues that start strictly after [i*D] and END strictly before
    [(i+1)*D]; membership depends on both offsets. *)
Theorem captionsSection_membership :
  forall (D i : Z) (captions : list SubRipItem),
    captionsSection D captions i
      = filter (fun c => (of_minutes (D * i) <? start c)
                         && (end_ c <? of_minutes (D * i + D))) captions
    /\ forall c, In c (captionsSection D captions i) <->
                 (In c captions /\ D * i * 60000 < start c
                  /\ end_ c < (D * i + D) * 60000).
Proof.
  intros D i captions. split.
  - unfold captionsSection. apply slice_as_one_filter.
  - intro c. apply captionsSection_In.
Qed.

(** ** Every cue in at most one chunk *)


Section AtMostOne.
Variables (D : Z) (captions : list SubRipItem).
Hypothesis D_pos : 0 < D.
Hypothesis well_formed : forall c, In c captions -> start c <= end_ c.





End AtMostOne.



(** ** Empty windows *)

(** Cues at 0:30 and 5:00 with two-minute chunks: window 1 is empty, the loop
    ends there, and the cue of window 2 is never emitted. *)
Lemma loop_stops_at_a_gap :
  0 < 2 /\
  sections (enough_fuel 2 gap_track) 2 gap_track 0
    = Some [[mkItem 30000 32000 "before the gap"]] /\
  (exists doc,
      chunk_while (enough_fuel 2 gap_track) 2 demo_template demo_entry
        demo_asset gap_track 0 [] = Return [doc]) /\
  captionsSection 2 gap_track 1 = [] /\
  captionsSection 2 gap_track 2 = [mkItem 300000 302000 "after the gap"] /\
  ~ continues_past_gaps 2 gap_track [[mkItem 30000 32000 "before the gap"]].
Proof.
  split; [lia|]. split; [reflexivity|].
  split; [eexists; vm_compute; reflexivity|].
  split; [reflexivity|]. split; [reflexivity|].
  intros H. specialize (H 2).
  destruct H as [H|[]].
  - lia.
  - vm_compute. discriminate.
  - vm_compute. discriminate.
  - vm_compute in H. discriminate.
Qed.

Lemma Forall_nonempty_map_indices (D : Z) (captions : list SubRipItem)
    (fuel : nat) (secs : list (list SubRipItem)) :
  sections fuel D captions 0 = Some secs ->
  secs = map (captionsSection D captions) (indices 0 (List.length secs))
  /\ Forall (fun s => s <> []) secs
  /\ captionsSection D captions (Z.of_nat (List.length secs)) = [].
Proof.
  intros H. destruct (sections_shape D captions fuel 0 secs H) as (A & B & C).
  repeat split; assumption.
Qed.

(** C2 (as the code has it): with a positive chunk duration the loop ends;
    a window with an empty selection produces no chunk and ends the emission
    for the track.  The emitted chunks are those of windows [0 .. k-1], all
    non-empty, where [k] is the first window with an empty selection, so the
    window indices of the output are contiguous.  Cues at 0:30 and 3:10 with
    two-minute chunks yield exactly two chunks. *)
Theorem emission_ends_at_first_empty_window :
  forall (D : Z) (captions : list SubRipItem) (fuel : nat)
         (urlTemplate_ : string) (mediaEntry : KalturaMediaEntry)
         (captionAsset : KalturaCaptionAsset),
    0 < D ->
    (enough_fuel D captions <= fuel)%nat ->
    (exists k : nat,
        let secs := map (captionsSection D captions) (indices 0 k) in
        sections fuel D captions 0 = Some secs
        /\ chunk_while fuel D urlTemplate_ mediaEntry captionAsset
             captions 0 []
           = emit urlTemplate_ mediaEntry captionAsset secs []
        /\ Forall (fun s => s <> []) secs
        /\ captionsSection D captions (Z.of_nat k) = [])
    /\ (exists d0 d1,
           chunk_while (enough_fuel 2 two_window_track) 2 demo_template
             demo_entry demo_asset two_window_track 0 [] = Return [d0; d1]).
Proof.
  intros D captions fuel tmpl e a HD Hfuel. split.
  - destruct (sections_terminate D captions fuel HD Hfuel) as [secs Hs].
    destruct (Forall_nonempty_map_indices D captions fuel secs Hs)
      as (Hm & Hne & Hend).
    exists (List.length secs). cbv zeta. rewrite <- Hm.
    repeat split; try assumption. now apply chunk_while_emit.
  - do 2 eexists. vm_compute. reflexivity.
Qed.

Lemma emission_ends_at_first_empty_window_witness :
  (exists k : nat,
      let secs := map (captionsSection 2 gap_track) (indices 0 k) in
      sections 5 2 gap_track 0 = Some secs
      /\ chunk_while 5 2 demo_template demo_entry demo_asset gap_track 0 []
         = emit demo_template demo_entry demo_asset secs []
      /\ Forall (fun s => s <> []) secs
      /\ captionsSection 2 gap_track (Z.of_nat k) = [])
  /\ (exists d0 d1,
         chunk_while (enough_fuel 2 two_window_track) 2 demo_template
           demo_entry demo_asset two_window_track 0 [] = Return [d0; d1]).
Proof.
  apply (emission_ends_at_first_empty_window 2 gap_track 5).
  - lia.
  - vm_compute. lia.
Defined.

(** The three-cue track with two-minute chunks: the cues at 0:05 and 1:50
    make the first document, the cue at 2:30 the second. *)
Example three_cue_track_documents :
  chunk_while (enough_fuel 2 three_cue_track) 2 demo_template demo_entry
    demo_asset three_cue_track 0 []
  = Return
      [mkDocument (String.append "a" (String "010" "b"))
         "https://x.test/0_abc123?t=5" "Lecture 1" "0_abc123" "00:00:05"
         "1_cap" "en" "SRT";
       mkDocument "c"
         "https://x.test/0_abc123?t=150" "Lecture 1" "0_abc123" "00:02:30"
         "1_cap" "en" "SRT"].
Proof. vm_compute. reflexivity. Qed.

(** ** Construction and the chunk duration *)

(** [__init__] with a chunk duration of 0, and of -3, returns a loader. *)
Lemma nonpositive_chunkMinutes_accepted :
  0 <= 0 /\ -3 <= 0 /\
  init demo_env "1234" "1_token" "secret" (IsFilterType MEDIAID) "0_abc123"
    demo_template (Some LANGUAGES_DEFAULT) EXPIRY_SECONDS_DEFAULT 0 None
  = Ok (mkLoader demo_client (Some (setMediaEntry "0_abc123")) 0
          demo_template (Some LANGUAGES_DEFAULT)) /\
  init demo_env "1234" "1_token" "secret" (IsFilterType MEDIAID) "0_abc123"
    demo_template (Some LANGUAGES_DEFAULT) EXPIRY_SECONDS_DEFAULT (-3) None
  = Ok (mkLoader demo_client (Some (setMediaEntry "0_abc123")) (-3)
          demo_template (Some LANGUAGES_DEFAULT)).
Proof. repeat split; try lia; reflexivity. Qed.

Lemma init_chunkMinutes_not_checked (env : Env)
    (partnerId appTokenId appTokenValue : string) (ft : filterType_arg)
    (filterValue tmpl : string) (langs : option (list string))
    (expiry m : Z) (base : option string) :
  init env partnerId appTokenId appTokenValue ft filterValue tmpl langs
    expiry m base
  = match init env partnerId appTokenId appTokenValue ft filterValue tmpl
            langs expiry CHUNK_MINUTES_DEFAULT base with
    | Ok l => Ok (with_chunkMinutes m l)
    | Err e => Err e
    end.
Proof.
  unfold init.
  destruct (negb _); [reflexivity|].
  destruct ft as [t|]; [|reflexivity].
  destruct (negb (truthy filterValue)); [reflexivity|].
  destruct (negb (truthy tmpl)); [reflexivity|].
  destruct (startWidgetSession _ _ _); [|reflexivity].
  destruct (negb (is_ascii _)); [reflexivity|].
  destruct (appToken_startSession _ _ _ _ _); reflexivity.
Qed.

Lemma init_fields (env : Env)
    (partnerId appTokenId appTokenValue : string) (ft : filterType_arg)
    (filterValue tmpl : string) (langs : option (list string))
    (expiry m : Z) (base : option string) (l : KalturaCaptionLoader) :
  init env partnerId appTokenId appTokenValue ft filterValue tmpl langs
    expiry m base = Ok l ->
  chunkMinutes l = m /\ urlTemplate l = tmpl /\ languages l = langs
  /\ exists f, mediaFilter l = Some f.
Proof.
  unfold init.
  destruct (negb _); [discriminate|].
  destruct ft as [t|]; [|discriminate].
  destruct (negb (truthy filterValue)); [discriminate|].
  destruct (negb (truthy tmpl)); [discriminate|].
  destruct (startWidgetSession _ _ _); [|discriminate].
  destruct (negb (is_ascii _)); [discriminate|].
  destruct (appToken_startSession _ _ _ _ _); [|discriminate].
  intros [= <-]. simpl. eauto.
Qed.

Lemma nonpositive_window_empty (m : Z) (captions : list SubRipItem) :
  m <= 0 -> (forall c, In c captions -> 0 <= end_ c) ->
  captionsSection m captions 0 = [].
Proof.
  intros Hm Hend.
  destruct (captionsSection m captions 0) as [|c more] eqn:E; [reflexivity|].
  assert (Hin : In c (captionsSection m captions 0)) by (rewrite E; now left).
  apply captionsSection_In in Hin. destruct Hin as (Hc & _ & Hhi).
  specialize (Hend c Hc). nia.
Qed.

(** C4 (as the code has it): [__init__] does not look at the chunk duration.
    Its outcome with [chunkMinutes <= 0] is its outcome with the default
    duration, the loader storing the duration as given; and under such a
    duration a track whose end offsets are not negative produces no chunk:
    the first window is empty and the loop ends at once. *)
Theorem nonpositive_chunkMinutes_yields_no_chunk :
  forall (env : Env) (partnerId appTokenId appTokenValue : string)
         (ft : filterType_arg) (filterValue tmpl : string)
         (langs : option (list string)) (expiry m : Z)
         (base : option string) (fuel : nat) (mediaEntry : KalturaMediaEntry)
         (captionAsset : KalturaCaptionAsset) (captions : list SubRipItem)
         (docs : list Document),
    m <= 0 ->
    (forall c, In c captions -> 0 <= end_ c) ->
    init env partnerId appTokenId appTokenValue ft filterValue tmpl langs
      expiry m base
    = match init env partnerId appTokenId appTokenValue ft filterValue tmpl
              langs expiry CHUNK_MINUTES_DEFAULT base with
      | Ok l => Ok (with_chunkMinutes m l)
      | Err e => Err e
      end
    /\ chunk_while (S fuel) m tmpl mediaEntry captionAsset captions 0 docs
       = Return docs.
Proof.
  intros env partnerId appTokenId appTokenValue ft filterValue tmpl langs
    expiry m base fuel e a captions docs Hm Hend.
  split; [apply init_chunkMinutes_not_checked|].
  simpl. now rewrite nonpositive_window_empty.
Qed.

Lemma nonpositive_chunkMinutes_yields_no_chunk_witness :
  init demo_env "1234" "1_token" "secret" (IsFilterType MEDIAID) "0_abc123"
    demo_template None EXPIRY_SECONDS_DEFAULT (-3) None
  = match init demo_env "1234" "1_token" "secret" (IsFilterType MEDIAID)
            "0_abc123" demo_template None EXPIRY_SECONDS_DEFAULT
            CHUNK_MINUTES_DEFAULT None with
    | Ok l => Ok (with_chunkMinutes (-3) l)
    | Err e => Err e
    end
  /\ chunk_while 1 (-3) demo_template demo_entry demo_asset
       three_cue_track 0 [] = Return [].
Proof.
  apply (nonpositive_chunkMinutes_yields_no_chunk demo_env "1234" "1_token"
           "secret" (IsFilterType MEDIAID) "0_abc123" demo_template None
           EXPIRY_SECONDS_DEFAULT (-3) None 0 demo_entry demo_asset
           three_cue_track []).
  - lia.
  - intros c [<-|[<-|[<-|[]]]]; simpl; lia.
Defined.

(** ** The language test *)

Lemma set_languages_same (st : State) :
  set_languages (languages (self st)) st = st.
Proof. destruct st as [[c f m t l] cs]. reflexivity. Qed.

(** Without an allow-list every asset passes and nothing is consumed. *)
Lemma language_skip_None (a : KalturaCaptionAsset) (st : State) :
  languages (self st) = None ->
  language_skip a st = (Return false, st).
Proof. intros H. unfold language_skip. now rewrite H. Qed.

Lemma language_skip_Some (a : KalturaCaptionAsset) (st : State)
    (items : list string) :
  languages (self st) = Some items ->
  language_skip a st
  = (Return (negb (fst (iter_contains (str_lower (languageCode a)) items))),
     set_languages
       (Some (snd (iter_contains (str_lower (languageCode a)) items))) st).
Proof.
  intros H. unfold language_skip. rewrite H.
  destruct (iter_contains _ items). reflexivity.
Qed.

(** On an iterator that has yielded nothing yet the test agrees with the
    specification's. *)
Lemma iter_contains_fresh (x : string) (items : list string) :
  fst (iter_contains x items) = existsb (String.eqb x) (map str_lower items).
Proof.
  induction items as [|e rest IH]; simpl; [reflexivity|].
  destruct (String.eqb x (str_lower e)); [reflexivity|exact IH].
Qed.

(** What a membership test leaves of the iterator is a proper suffix of it,
    or nothing. *)
Lemma iter_contains_consumes (x : string) (items : list string) :
  items <> [] ->
  (List.length (snd (iter_contains x items)) < List.length items)%nat.
Proof.
  induction items as [|e rest IH]; [congruence|]. intros _. simpl.
  destruct (String.eqb x (str_lower e)); simpl; [lia|].
  destruct rest as [|e' rest']; [simpl; lia|].
  specialize (IH ltac:(discriminate)). lia.
Qed.

(** C5, the code at the failing input: allow-list [('en',)], one media entry
    with two SRT assets both tagged [en].  The specification's test keeps
    both; the loader chunks the first, whose test exhausts the iterator, and
    skips the second: every document comes from asset [1_a] and asset [1_b]
    is never fetched. *)
Theorem second_asset_of_an_allowed_language_is_skipped :
  exists l docs st',
    init demo_env "1234" "1_token" "secret" (IsFilterType MEDIAID) "0_abc123"
      demo_template (Some ["en"]) EXPIRY_SECONDS_DEFAULT 2 None = Ok l
    /\ spec_language_kept (Some ["en"]) (mkAsset "1_a" "en" SRT) = true
    /\ spec_language_kept (Some ["en"]) (mkAsset "1_b" "en" SRT) = true
    /\ load demo_env 4 (mkState l []) = (Return docs, st')
    /\ map caption_id docs = ["1_a"; "1_a"]
    /\ languages (self st') = Some []
    /\ calls st'
       = [CallMediaList (setMediaEntry "0_abc123");
          CallCaptionAssetList "0_abc123";
          CallGetUrl "1_a";
          CallRequestsGet "https://cdn.test/1_a";
          CallFromString "srt of https://cdn.test/1_a"].
Proof.
  do 3 eexists. split; [reflexivity|].
  split; [reflexivity|]. split; [reflexivity|].
  split; [vm_compute; reflexivity|].
  repeat split.
Qed.

(** ** An empty allow-list *)

Section EmptyAllowList.
Variable env : Env.
Variable fuel : nat.

Lemma language_skip_empty (a : KalturaCaptionAsset) (st : State) :
  languages (self st) = Some [] ->
  language_skip a st = (Return true, st).
Proof.
  intros H. rewrite (language_skip_Some a st [] H). simpl.
  rewrite <- H. now rewrite set_languages_same.
Qed.

Lemma for_captionAssets_empty (mediaEntry : KalturaMediaEntry)
    (assets : list KalturaCaptionAsset) (docs : list Document)
    (st : State) :
  languages (self st) = Some [] ->
  for_captionAssets env fuel mediaEntry assets docs st = (Return docs, st).
Proof.
  intros H. induction assets as [|a rest IH]; simpl; [reflexivity|].
  unfold bind. rewrite (language_skip_empty a st H). exact IH.
Qed.

Lemma for_mediaEntries_empty (entries : list KalturaMediaEntry) :
  forall (docs : list Document) (st : State),
    languages (self st) = Some [] ->
    (forall e, In e entries ->
       exists assets,
         captionAsset_list env (client (self st)) (entry_id e) = Ok assets) ->
    exists st',
      for_mediaEntries env fuel entries docs st = (Return docs, st')
      /\ self st' = self st.
Proof.
  induction entries as [|e rest IH]; intros docs st Hl Hassets; simpl.
  - exists st. split; reflexivity.
  - destruct (Hassets e (or_introl eq_refl)) as [assets Ha].
    unfold bind at 1. unfold fetchMediaCaption, bind at 1, remote.
    rewrite Ha.
    rewrite for_captionAssets_empty by exact Hl.
    rewrite app_nil_r.
    destruct (IH docs
                (mkState (self st)
                   (calls st ++ [CallCaptionAssetList (entry_id e)])))
      as (st' & Hr & Hs).
    + exact Hl.
    + intros e' He'. apply Hassets. now right.
    + exists st'. split; [exact Hr|exact Hs].
Qed.

End EmptyAllowList.

(** C10: a loader constructed with an empty sequence of languages (not
    [None]) skips every caption asset of every media entry: whenever the
    media and caption-asset listings answer, [load] returns the empty list,
    whatever the assets are. *)
Theorem empty_languages_load_nothing :
  forall (env : Env) (fuel : nat)
         (partnerId appTokenId appTokenValue : string) (ft : filterType_arg)
         (filterValue tmpl : string) (expiry m : Z) (base : option string)
         (l : KalturaCaptionLoader) (f : KalturaMediaEntryFilter)
         (entries : list KalturaMediaEntry),
    init env partnerId appTokenId appTokenValue ft filterValue tmpl
      (Some []) expiry m base = Ok l ->
    mediaFilter l = Some f ->
    media_list env (client l) f = Ok entries ->
    (forall e, In e entries ->
       exists assets, captionAsset_list env (client l) (entry_id e)
                      = Ok assets) ->
    fst (load env fuel (mkState l [])) = Return [].
Proof.
  intros env fuel partnerId appTokenId appTokenValue ft filterValue tmpl
    expiry m base l f entries Hinit Hf Hmedia Hassets.
  destruct (init_fields _ _ _ _ _ _ _ _ _ _ _ _ Hinit) as (_ & _ & Hl & _).
  unfold load, bind, get_self. simpl. rewrite Hf.
  unfold remote. simpl. rewrite Hmedia.
  destruct (for_mediaEntries_empty env fuel entries []
              (mkState l [CallMediaList f]) Hl Hassets) as (st' & Hr & _).
  simpl in Hr. rewrite Hr. reflexivity.
Qed.

Lemma empty_languages_load_nothing_witness :
  fst (load demo_env 4
         (mkState (mkLoader demo_client (Some (setMediaEntry "0_abc123")) 2
                     demo_template (Some [])) [])) = Return [].
Proof.
  apply (empty_languages_load_nothing demo_env 4 "1234" "1_token" "secret"
           (IsFilterType MEDIAID) "0_abc123" demo_template
           EXPIRY_SECONDS_DEFAULT 2 None _ (setMediaEntry "0_abc123")
           [demo_entry]).
  - reflexivity.
  - reflexivity.
  - reflexivity.
  - intros e _. eexists. reflexivity.
Defined.

(** ** The format test *)

Lemma caption_type_eqb_eq (a b : KalturaCaptionType) :
  caption_type_eqb a b = true <-> a = b.
Proof. destruct a, b; simpl; split; congruence. Qed.

(** ** Resolving a caption asset *)

(** With no location returned the loader still calls the transport, with the
    empty string; what is raised is the transport's own error. *)
Lemma fetch_attempted_without_location :
  chunk_asset no_location_env 4 demo_entry demo_asset []
    (mkState demo_loader [])
  = (Raise (RemoteError "MissingSchema"),
     mkState demo_loader [CallGetUrl "1_cap"; CallRequestsGet EmptyString])
  /\ ~ location_checked_before_fetch no_location_env 4 demo_entry demo_asset
         [] (mkState demo_loader []).
Proof.
  split; [reflexivity|].
  intros H. apply H; [reflexivity|]. simpl. right. now left.
Qed.

(** C9 (as the code has it): for a caption asset selected for chunking the
    loader asks for its location and hands whatever is returned, unchecked,
    to the content fetch, then to the parser.  It raises exactly when
    location resolution or the fetch raises, with that collaborator's
    exception (or when building a document does). *)
Theorem location_passed_to_fetch_unchecked :
  forall (env : Env) (fuel : nat) (mediaEntry : KalturaMediaEntry)
         (captionAsset : KalturaCaptionAsset) (docs : list Document)
         (st : State),
    chunk_asset env fuel mediaEntry captionAsset docs st
    = match captionAsset_getUrl env (client (self st))
              (asset_id captionAsset) with
      | Err x => (Raise x, logged st [CallGetUrl (asset_id captionAsset)])
      | Ok captionUrl =>
          match requests_get_text env captionUrl with
          | Err x =>
              (Raise x,
               logged st [CallGetUrl (asset_id captionAsset);
                          CallRequestsGet captionUrl])
          | Ok captionSource =>
              (chunk_while fuel (chunkMinutes (self st))
                 (urlTemplate (self st)) mediaEntry captionAsset
                 (from_string env captionSource) 0 docs,
               logged st [CallGetUrl (asset_id captionAsset);
                          CallRequestsGet captionUrl;
                          CallFromString captionSource])
          end
      end.
Proof.
  intros env fuel e a docs st.
  unfold chunk_asset, bind, remote, get_self, lift, logged. simpl.
  destruct (captionAsset_getUrl env _ _) as [url|x]; [|reflexivity].
  destruct (requests_get_text env url) as [src|x]; simpl;
    rewrite <- ?app_assoc; reflexivity.
Qed.

(** ** The documents of a track *)

Section EmitFacts.
Variables (urlTemplate_ : string) (mediaEntry : KalturaMediaEntry)
          (captionAsset : KalturaCaptionAsset).

Lemma make_document_Ok (sec : list SubRipItem) (t : SubRipTime)
    (doc : Document) :
  make_document urlTemplate_ mediaEntry captionAsset sec t = Ok doc ->
  str_format urlTemplate_ (entry_id mediaEntry) (t / 1000)
    = Ok (source doc)
  /\ page_content doc = file_text sec
  /\ timestamp doc = drop_last 4 (time_str t)
  /\ filename doc = name mediaEntry
  /\ media_id doc = entry_id mediaEntry
  /\ caption_id doc = asset_id captionAsset
  /\ language_code doc = languageCode captionAsset
  /\ caption_format doc = "SRT".
Proof.
  unfold make_document.
  destruct (str_format _ _ _) as [src|x]; [|discriminate].
  intros [= <-]. simpl. repeat split; reflexivity.
Qed.

Lemma make_document_Err (sec : list SubRipItem) (t : SubRipTime)
    (x : exn) :
  make_document urlTemplate_ mediaEntry captionAsset sec t = Err x ->
  str_format urlTemplate_ (entry_id mediaEntry) (t / 1000) = Err x.
Proof.
  unfold make_document.
  destruct (str_format _ _ _) as [src|y]; [discriminate|].
  now intros [= <-].
Qed.

(** [emit] returns one document per cue set, or raises what the first
    failing [format] call raises. *)
Lemma emit_outcome (secs : list (list SubRipItem)) :
  forall docs0,
    (exists ds,
        emit urlTemplate_ mediaEntry captionAsset secs docs0
          = Return (docs0 ++ ds)
        /\ Forall2 (fun sec doc =>
                      make_document urlTemplate_ mediaEntry captionAsset
                        sec (first_start sec) = Ok doc) secs ds)
    \/ (exists x sec,
           In sec secs
           /\ make_document urlTemplate_ mediaEntry captionAsset sec
                (first_start sec) = Err x
           /\ emit urlTemplate_ mediaEntry captionAsset secs docs0
              = Raise x).
Proof.
  induction secs as [|sec later IH]; intros docs0; simpl.
  - left. exists []. rewrite app_nil_r. split; [reflexivity|constructor].
  - destruct (make_document _ _ _ sec _) as [doc|x] eqn:E.
    + destruct (IH (docs0 ++ [doc])) as [(ds & Hr & Hf)|(x & s & Hi & He & Hr)].
      * left. exists (doc :: ds). rewrite Hr, <- app_assoc.
        split; [reflexivity|]. constructor; assumption.
      * right. exists x, s. auto.
    + right. exists x, sec. auto.
Qed.

End EmitFacts.

(** ** The source URL *)

Section FormatFacts.
Variables (mediaId : string) (startSeconds : Z).

Lemma format_scan_literal (s rest : string) :
  format_scan mediaId startSeconds None (String.append (escape_braces s) rest)
  = match format_scan mediaId startSeconds None rest with
    | Ok t => Ok (String.append s t)
    | Err e => Err e
    end.
Proof.
  induction s as [|c r IH]; simpl.
  - destruct (format_scan _ _ _ rest); reflexivity.
  - destruct (Ascii.eqb c "{") eqn:Ho.
    + apply Ascii.eqb_eq in Ho. subst c. simpl. rewrite IH.
      destruct (format_scan _ _ _ rest); reflexivity.
    + destruct (Ascii.eqb c "}") eqn:Hc.
      * apply Ascii.eqb_eq in Hc. subst c. simpl. rewrite IH.
        destruct (format_scan _ _ _ rest); reflexivity.
      * simpl. rewrite Ho, Hc, IH.
        destruct (format_scan _ _ _ rest); reflexivity.
Qed.

Lemma format_scan_mediaId (rest : string) :
  format_scan mediaId startSeconds None (String.append "{mediaId}" rest)
  = match format_scan mediaId startSeconds None rest with
    | Ok t => Ok (String.append mediaId t)
    | Err e => Err e
    end.
Proof. reflexivity. Qed.

Lemma format_scan_startSeconds (rest : string) :
  format_scan mediaId startSeconds None
    (String.append "{startSeconds}" rest)
  = match format_scan mediaId startSeconds None rest with
    | Ok t => Ok (String.append (str_of_int startSeconds) t)
    | Err e => Err e
    end.
Proof. reflexivity. Qed.

Lemma str_format_pieces (ps : list piece) :
  str_format (template_text ps) mediaId startSeconds
  = Ok (substituted mediaId startSeconds ps).
Proof.
  unfold str_format. induction ps as [|p rest IH]; simpl;
    [reflexivity|].
  destruct p as [s| |]; simpl piece_text; simpl piece_value.
  - rewrite format_scan_literal, IH. reflexivity.
  - rewrite format_scan_mediaId, IH. reflexivity.
  - rewrite format_scan_startSeconds, IH. reflexivity.
Qed.

End FormatFacts.

Lemma Forall2_with_Forall {A B : Type} (P : A -> Prop) (R : A -> B -> Prop)
    (l : list A) (l' : list B) :
  Forall P l -> Forall2 R l l' -> Forall2 (fun a b => P a /\ R a b) l l'.
Proof.
  intros HP HR. induction HR as [|a b l l' Hab HR IH]; [constructor|].
  inversion HP; subst. constructor; auto.
Qed.

(** C7: with a positive chunk duration and a template made of literal text
    and the fields [{mediaId}] and [{startSeconds}], the loop ends and the
    [source] of every emitted document is the template with the media id and
    the chunk's start offset in whole seconds (the milliseconds of its first
    cue divided by 1000, rounded down) in place of the fields.  Template [https://x.test/{mediaId}?t={startSeconds}], media
    id [0_abc123] and a chunk starting at 125.7 s give
    [https://x.test/0_abc123?t=125]. *)
Theorem source_is_substituted_template :
  forall (ps : list piece) (mediaEntry : KalturaMediaEntry)
         (captionAsset : KalturaCaptionAsset) (D : Z)
         (captions : list SubRipItem) (fuel : nat),
    0 < D ->
    (enough_fuel D captions <= fuel)%nat ->
    (exists secs docs,
        sections fuel D captions 0 = Some secs
        /\ chunk_while fuel D (template_text ps) mediaEntry captionAsset
             captions 0 [] = Return docs
        /\ Forall2 (fun sec doc =>
                      source doc
                      = substituted (entry_id mediaEntry)
                          (first_start sec / 1000) ps) secs docs)
    /\ template_text demo_pieces = demo_template
    /\ str_format demo_template "0_abc123" (125700 / 1000)
       = Ok "https://x.test/0_abc123?t=125"
    /\ (exists d0 d1,
           chunk_while (enough_fuel 2 url_track) 2 demo_template demo_entry
             demo_asset url_track 0 [] = Return [d0; d1]
           /\ source d1 = "https://x.test/0_abc123?t=125").
Proof.
  intros ps e a D captions fuel HD Hfuel. split.
  - destruct (sections_terminate D captions fuel HD Hfuel) as [secs Hs].
    rewrite (chunk_while_emit D (template_text ps) e a captions fuel 0 secs []
               Hs).
    destruct (emit_outcome (template_text ps) e a secs [])
      as [(ds & Hr & Hf)|(x & sec & _ & He & _)].
    + exists secs, ds. split; [exact Hs|]. split; [exact Hr|].
      eapply Forall2_impl; [|exact Hf].
      intros sec doc Hd. apply make_document_Ok in Hd.
      destruct Hd as (Hsrc & _).
      rewrite str_format_pieces in Hsrc.
      now injection Hsrc.
    + apply make_document_Err in He.
      rewrite str_format_pieces in He. discriminate.
  - split; [reflexivity|]. split; [reflexivity|].
    do 2 eexists. split; [vm_compute; reflexivity|reflexivity].
Qed.

Lemma source_is_substituted_template_witness :
  (exists secs docs,
      sections 3 2 url_track 0 = Some secs
      /\ chunk_while 3 2 (template_text demo_pieces) demo_entry demo_asset
           url_track 0 [] = Return docs
      /\ Forall2 (fun sec doc =>
                    source doc
                    = substituted (entry_id demo_entry)
                        (first_start sec / 1000) demo_pieces) secs docs)
  /\ template_text demo_pieces = demo_template
  /\ str_format demo_template "0_abc123" (125700 / 1000)
     = Ok "https://x.test/0_abc123?t=125"
  /\ (exists d0 d1,
         chunk_while (enough_fuel 2 url_track) 2 demo_template demo_entry
           demo_asset url_track 0 [] = Return [d0; d1]
         /\ source d1 = "https://x.test/0_abc123?t=125").
Proof.
  apply (source_is_substituted_template demo_pieces demo_entry demo_asset 2
           url_track 3).
  - lia.
  - vm_compute. lia.
Defined.

(** ** Further properties: [FilterType] and construction *)

Lemma FilterType_members_get_Some (member : string) (t : FilterType) :
  FilterType_members_get member = Some t <-> member = FilterType_name t.
Proof.
  unfold FilterType_members_get.
  destruct (String.eqb member "CATEGORY") eqn:Ec.
  - apply String.eqb_eq in Ec. subst. destruct t; simpl; split; congruence.
  - destruct (String.eqb member "MEDIAID") eqn:Em.
    + apply String.eqb_eq in Em. subst. destruct t; simpl; split; congruence.
    + apply String.eqb_neq in Ec, Em.
      destruct t; simpl; split; congruence.
Qed.

(** X1: for an ASCII key, [FilterType(key)] is case-insensitive in the
    member name: it gives member [t] exactly when the upper-cased key is the
    name of [t], and raises a [ValueError] for every other key. *)
Theorem FilterType_missing_case_insensitive :
  forall (key : string),
    is_ascii key = true ->
    (forall t, FilterType_missing key = Ok t <->
               str_upper key = FilterType_name t)
    /\ ((forall t, str_upper key <> FilterType_name t) <->
        exists msg, FilterType_missing key = Err (ValueError msg)).
Proof.
  intros key Hascii. unfold FilterType_missing. rewrite Hascii. cbn [negb].
  destruct (FilterType_members_get (str_upper key)) as [v|] eqn:E.
  - apply FilterType_members_get_Some in E. split.
    + intros t. split.
      * intros [= <-]. exact E.
      * intros H. f_equal. rewrite H in E.
        destruct t, v; simpl in E; congruence.
    + split.
      * intros H. exfalso. exact (H v E).
      * intros [msg H]. discriminate.
  - split.
    + intros t. split; [discriminate|].
      intros H. apply FilterType_members_get_Some in H. congruence.
    + split.
      * intros _. eexists. reflexivity.
      * intros _ t H. apply FilterType_members_get_Some in H. congruence.
Qed.

Lemma FilterType_missing_case_insensitive_witness :
  (forall t, FilterType_missing "Category" = Ok t <->
             str_upper "Category" = FilterType_name t)
  /\ ((forall t, str_upper "Category" <> FilterType_name t) <->
      exists msg, FilterType_missing "Category" = Err (ValueError msg)).
Proof.
  apply (FilterType_missing_case_insensitive "Category"). reflexivity.
Defined.

Lemma truthy_true (s : string) : truthy s = true <-> s <> EmptyString.
Proof.
  unfold truthy. rewrite negb_true_iff. apply String.eqb_neq.
Qed.

Lemma truthy_false (s : string) : truthy s = false <-> s = EmptyString.
Proof.
  unfold truthy. rewrite negb_false_iff. apply String.eqb_eq.
Qed.

Lemma init_Ok_inv (env : Env) (partnerId appTokenId appTokenValue : string)
    (fta : filterType_arg) (filterValue tmpl : string)
    (langs : option (list string)) (expiry m : Z) (base : option string)
    (l : KalturaCaptionLoader) :
  init env partnerId appTokenId appTokenValue fta filterValue tmpl langs
    expiry m base = Ok l ->
  partnerId <> EmptyString /\ appTokenId <> EmptyString
  /\ appTokenValue <> EmptyString /\ filterValue <> EmptyString
  /\ tmpl <> EmptyString
  /\ exists ft widget_ks app_ks,
       fta = IsFilterType ft
       /\ startWidgetSession env (mkClient base EmptyString)
            (String.append "_" partnerId) = Ok widget_ks
       /\ is_ascii (String.append widget_ks appTokenValue) = true
       /\ appToken_startSession env (mkClient base widget_ks) appTokenId
            (sha512_hexdigest env (String.append widget_ks appTokenValue))
            expiry = Ok app_ks
       /\ l = mkLoader (mkClient base app_ks)
                (Some (filter_for ft filterValue)) m tmpl langs.
Proof.
  unfold init.
  destruct (truthy partnerId) eqn:Hp; [|discriminate].
  destruct (truthy appTokenId) eqn:Ht; [|discriminate].
  destruct (truthy appTokenValue) eqn:Hv; [|discriminate]. simpl.
  destruct fta as [ft|]; [|discriminate].
  destruct (truthy filterValue) eqn:Hfv; [|discriminate].
  destruct (truthy tmpl) eqn:Htm; [|discriminate]. simpl.
  destruct (startWidgetSession _ _ _) as [wks|] eqn:Hw; [|discriminate].
  destruct (is_ascii _) eqn:Ha; [|discriminate]. simpl.
  destruct (appToken_startSession _ _ _ _ _) as [aks|] eqn:Hs;
    [|discriminate].
  intros [= <-]. apply truthy_true in Hp, Ht, Hv, Hfv, Htm.
  repeat (split; [assumption|]).
  exists ft, wks, aks. repeat (split; [assumption || reflexivity|]).
  destruct ft; reflexivity.
Qed.

(** X2: [__init__] returns a loader exactly when the three credentials, the
    filter value and the URL template are non-empty, [filterType] is a
    [FilterType], the widget session starts, its key followed by the token
    value is ASCII, and the app-token session starts with the SHA-512 of that
    text on a client holding the widget key.  The loader then holds the
    app-token session key, the filter of the given kind, and the duration,
    template and languages as given. *)
Theorem init_succeeds_iff :
  forall (env : Env) (partnerId appTokenId appTokenValue : string)
         (fta : filterType_arg) (filterValue tmpl : string)
         (langs : option (list string)) (expiry m : Z)
         (base : option string) (l : KalturaCaptionLoader),
    init env partnerId appTokenId appTokenValue fta filterValue tmpl langs
      expiry m base = Ok l
    <->
    (partnerId <> EmptyString /\ appTokenId <> EmptyString
     /\ appTokenValue <> EmptyString /\ filterValue <> EmptyString
     /\ tmpl <> EmptyString
     /\ exists ft widget_ks app_ks,
          fta = IsFilterType ft
          /\ startWidgetSession env (mkClient base EmptyString)
               (String.append "_" partnerId) = Ok widget_ks
          /\ is_ascii (String.append widget_ks appTokenValue) = true
          /\ appToken_startSession env (mkClient base widget_ks) appTokenId
               (sha512_hexdigest env (String.append widget_ks appTokenValue))
               expiry = Ok app_ks
          /\ l = mkLoader (mkClient base app_ks)
                   (Some (filter_for ft filterValue)) m tmpl langs).
Proof.
  intros env p t v fta fv tmpl langs expiry m base l. split.
  - apply init_Ok_inv.
  - intros (Hp & Ht & Hv & Hfv & Htm & ft & wks & aks & -> & Hw & Ha & Hs & ->).
    apply truthy_true in Hp, Ht, Hv, Hfv, Htm. unfold init.
    rewrite Hp, Ht, Hv, Hfv, Htm, Hw, Ha, Hs.
    destruct ft; reflexivity.
Qed.

(** X3: when a construction argument is missing, [__init__] raises before
    any session is started: the same [ValueError] or [TypeError] whatever the
    remote service would answer. *)
Theorem init_validates_before_remote :
  forall (env env' : Env) (partnerId appTokenId appTokenValue : string)
         (fta : filterType_arg) (filterValue tmpl : string)
         (langs : option (list string)) (expiry m : Z)
         (base : option string),
    partnerId = EmptyString \/ appTokenId = EmptyString
    \/ appTokenValue = EmptyString \/ fta = NotFilterType
    \/ filterValue = EmptyString \/ tmpl = EmptyString ->
    init env partnerId appTokenId appTokenValue fta filterValue tmpl langs
      expiry m base
    = init env' partnerId appTokenId appTokenValue fta filterValue tmpl langs
        expiry m base
    /\ exists x,
         init env partnerId appTokenId appTokenValue fta filterValue tmpl
           langs expiry m base = Err x
         /\ (x = TypeError \/ exists msg, x = ValueError msg).
Proof.
  intros env env' p t v fta fv tmpl langs expiry m base H. unfold init.
  destruct (truthy p) eqn:Hp; simpl;
    [|split; [reflexivity|eexists; split; [reflexivity|right; eauto]]].
  destruct (truthy t) eqn:Ht; simpl;
    [|split; [reflexivity|eexists; split; [reflexivity|right; eauto]]].
  destruct (truthy v) eqn:Hv; simpl;
    [|split; [reflexivity|eexists; split; [reflexivity|right; eauto]]].
  destruct fta as [ft|];
    [|split; [reflexivity|eexists; split; [reflexivity|left; reflexivity]]].
  destruct (truthy fv) eqn:Hfv; simpl;
    [|split; [reflexivity|eexists; split; [reflexivity|right; eauto]]].
  destruct (truthy tmpl) eqn:Htm; simpl;
    [|split; [reflexivity|eexists; split; [reflexivity|right; eauto]]].
  exfalso. apply truthy_true in Hp, Ht, Hv, Hfv, Htm.
  destruct H as [H|[H|[H|[H|[H|H]]]]]; congruence.
Qed.

Lemma init_validates_before_remote_witness :
  init demo_env "1234" "1_token" "secret" NotFilterType "0_abc123"
    demo_template None EXPIRY_SECONDS_DEFAULT 2 None
  = init no_location_env "1234" "1_token" "secret" NotFilterType "0_abc123"
      demo_template None EXPIRY_SECONDS_DEFAULT 2 None
  /\ exists x,
       init demo_env "1234" "1_token" "secret" NotFilterType "0_abc123"
         demo_template None EXPIRY_SECONDS_DEFAULT 2 None = Err x
       /\ (x = TypeError \/ exists msg, x = ValueError msg).
Proof.
  apply (init_validates_before_remote demo_env no_location_env).
  right. right. right. left. reflexivity.
Defined.

(** ** Further properties: what a run does to [self] and to the log *)

Lemma follows_refl (st : State) : follows st st.
Proof.
  unfold follows. repeat split; auto. exists []. now rewrite app_nil_r.
Qed.

Lemma follows_trans (st1 st2 st3 : State) :
  follows st1 st2 -> follows st2 st3 -> follows st1 st3.
Proof.
  intros (A1 & B1 & C1 & D1 & E1 & cs1 & F1)
         (A2 & B2 & C2 & D2 & E2 & cs2 & F2).
  unfold follows. repeat split; try congruence.
  - auto.
  - exists (cs1 ++ cs2). rewrite F2, F1. now rewrite app_assoc.
Qed.

Section Keeps.
Variable env : Env.

Lemma keeps_ret {A : Type} (a : A) : keeps (ret a).
Proof. intro st. apply follows_refl. Qed.

Lemma keeps_lift {A : Type} (o : outcome A) : keeps (lift o).
Proof. intro st. apply follows_refl. Qed.

Lemma keeps_get_self : keeps get_self.
Proof. intro st. apply follows_refl. Qed.

Lemma keeps_remote {A : Type} (c : call)
    (answer : KalturaClient -> result A) : keeps (remote c answer).
Proof.
  intro st. unfold remote.
  destruct (answer (client (self st))); simpl;
    (unfold follows; simpl; repeat split; auto; now exists [c]).
Qed.

Lemma keeps_bind {A B : Type} (m : M A) (k : A -> M B) :
  keeps m -> (forall a, keeps (k a)) -> keeps (bind m k).
Proof.
  intros Hm Hk st. unfold bind. specialize (Hm st).
  destruct (m st) as [[a|x|] st1]; simpl in *; [|exact Hm|exact Hm].
  eapply follows_trans; [exact Hm|apply Hk].
Qed.

Lemma keeps_language_skip (a : KalturaCaptionAsset) :
  keeps (language_skip a).
Proof.
  intro st. unfold language_skip.
  destruct (languages (self st)) as [items|] eqn:E; [|apply follows_refl].
  destruct (iter_contains _ items) as [found items']. simpl.
  unfold follows. simpl. repeat split; auto.
  - congruence.
  - exists []. now rewrite app_nil_r.
Qed.

Lemma keeps_chunk_asset (fuel : nat) (e : KalturaMediaEntry)
    (a : KalturaCaptionAsset) (docs : list Document) :
  keeps (chunk_asset env fuel e a docs).
Proof.
  unfold chunk_asset.
  repeat (apply keeps_bind; [apply keeps_remote || apply keeps_get_self|];
          intro).
  apply keeps_lift.
Qed.

Lemma keeps_for_captionAssets (fuel : nat) (e : KalturaMediaEntry)
    (assets : list KalturaCaptionAsset) :
  forall docs, keeps (for_captionAssets env fuel e assets docs).
Proof.
  induction assets as [|a rest IH]; intros docs; simpl;
    [apply keeps_ret|].
  apply keeps_bind; [apply keeps_language_skip|]. intros skip.
  destruct skip; [apply IH|].
  destruct (caption_type_eqb (format a) SRT); [|apply IH].
  apply keeps_bind; [apply keeps_chunk_asset|]. intros docs'. apply IH.
Qed.

Lemma keeps_fetchMediaCaption (fuel : nat) (e : KalturaMediaEntry) :
  keeps (fetchMediaCaption env fuel e).
Proof.
  unfold fetchMediaCaption.
  apply keeps_bind; [apply keeps_remote|]. intros assets.
  apply keeps_for_captionAssets.
Qed.

Lemma keeps_for_mediaEntries (fuel : nat)
    (entries : list KalturaMediaEntry) :
  forall docs, keeps (for_mediaEntries env fuel entries docs).
Proof.
  induction entries as [|e rest IH]; intros docs; simpl;
    [apply keeps_ret|].
  apply keeps_bind; [apply keeps_fetchMediaCaption|]. intros d. apply IH.
Qed.

Lemma keeps_load (fuel : nat) : keeps (load env fuel).
Proof.
  unfold load. apply keeps_bind; [apply keeps_get_self|]. intros l.
  destruct (mediaFilter l); [|apply keeps_lift].
  apply keeps_bind; [apply keeps_remote|]. intros entries.
  apply keeps_for_mediaEntries.
Qed.

End Keeps.

(** X4: whatever it returns or raises, [load] leaves the client, the media
    filter, the chunk duration and the URL template of the loader as they
    were, only ever appends to the log of remote calls, and, when no
    allow-list is set ([languages] is [None]), leaves [self] unchanged, so
    that a second [load] starts from the same loader. *)
Theorem load_keeps_configuration :
  forall (env : Env) (fuel : nat) (st : State),
    client (self (snd (load env fuel st))) = client (self st)
    /\ mediaFilter (self (snd (load env fuel st))) = mediaFilter (self st)
    /\ chunkMinutes (self (snd (load env fuel st))) = chunkMinutes (self st)
    /\ urlTemplate (self (snd (load env fuel st))) = urlTemplate (self st)
    /\ (languages (self st) = None ->
        self (snd (load env fuel st)) = self st)
    /\ exists cs, calls (snd (load env fuel st)) = calls st ++ cs.
Proof.
  intros env fuel st.
  destruct (keeps_load env fuel st) as (A & B & C & D & E & F).
  repeat split; try assumption.
  intros Hn. specialize (E Hn).
  destruct (self (snd (load env fuel st))) as [c f m t l].
  destruct (self st) as [c0 f0 m0 t0 l0]. simpl in *. congruence.
Qed.

Lemma load_first_call (env : Env) (fuel : nat) (st : State)
    (f : KalturaMediaEntryFilter) :
  mediaFilter (self st) = Some f -> calls st = [] ->
  hd_error (calls (snd (load env fuel st))) = Some (CallMediaList f).
Proof.
  intros Hf Hc. unfold load, bind at 1, get_self. rewrite Hf.
  unfold bind, remote. rewrite Hc. simpl.
  destruct (media_list env (client (self st)) f) as [entries|x];
    [|reflexivity].
  destruct (keeps_for_mediaEntries env fuel entries []
              (mkState (self st) [CallMediaList f]))
    as (_ & _ & _ & _ & _ & cs & Hcs).
  destruct (for_mediaEntries env fuel entries [] _) as [[r|x|] st'];
    simpl in *; rewrite Hcs; reflexivity.
Qed.

(** X5: the first thing [load] does on a loader that [__init__] returned is
    to list the media with the filter of the chosen kind: [idEqual] alone for
    [MEDIAID], [categoriesMatchAnd] alone for [CATEGORY].  A constructed
    loader always has a filter. *)
Theorem load_after_init_lists_media :
  forall (env : Env) (fuel : nat)
         (partnerId appTokenId appTokenValue : string) (ft : FilterType)
         (filterValue tmpl : string) (langs : option (list string))
         (expiry m : Z) (base : option string) (l : KalturaCaptionLoader),
    init env partnerId appTokenId appTokenValue (IsFilterType ft) filterValue
      tmpl langs expiry m base = Ok l ->
    hd_error (calls (snd (load env fuel (mkState l []))))
    = Some (CallMediaList
              (match ft with
               | MEDIAID => mkFilter (Some filterValue) None
               | CATEGORY => mkFilter None (Some filterValue)
               end)).
Proof.
  intros env fuel p t v ft fv tmpl langs expiry m base l H.
  apply init_Ok_inv in H.
  destruct H as (_ & _ & _ & _ & _ & ft' & wks & aks & [= <-] & _ & _ & _ & ->).
  rewrite (load_first_call env fuel _ (filter_for ft fv));
    [destruct ft; reflexivity|reflexivity|reflexivity].
Qed.

Lemma load_after_init_lists_media_witness :
  hd_error
    (calls (snd (load demo_env 4
                   (mkState
                      (mkLoader demo_client
                         (Some (filter_for CATEGORY "root>site>course"))
                         2 demo_template None) []))))
  = Some (CallMediaList (mkFilter None (Some "root>site>course"))).
Proof.
  apply (load_after_init_lists_media demo_env 4 "1234" "1_token" "secret"
           CATEGORY "root>site>course" demo_template None
           EXPIRY_SECONDS_DEFAULT 2 None).
  reflexivity.
Defined.

(** X6: the two setters replace the filter, they do not combine: after
    [setMediaEntry] then [setMediaCategory] the media are listed by category
    alone, and the other way round by id alone; a loader whose filter is
    undefined raises a [ValueError] and calls nothing. *)
Theorem setters_replace_the_filter :
  forall (env : Env) (fuel : nat) (l : KalturaCaptionLoader)
         (mediaEntryId categoryText : string),
    hd_error (calls (snd (load env fuel
                            (mkState (self_setMediaCategory categoryText
                                        (self_setMediaEntry mediaEntryId l))
                                     []))))
    = Some (CallMediaList (mkFilter None (Some categoryText)))
    /\ hd_error (calls (snd (load env fuel
                               (mkState (self_setMediaEntry mediaEntryId
                                           (self_setMediaCategory
                                              categoryText l))
                                        []))))
       = Some (CallMediaList (mkFilter (Some mediaEntryId) None))
    /\ load env fuel
         (mkState (mkLoader (client l) None (chunkMinutes l) (urlTemplate l)
                     (languages l)) [])
       = (Raise (ValueError "Media filter is not defined"),
          mkState (mkLoader (client l) None (chunkMinutes l) (urlTemplate l)
                     (languages l)) []).
Proof.
  intros env fuel l i c. split; [|split].
  - now apply load_first_call.
  - now apply load_first_call.
  - reflexivity.
Qed.

(** ** Further properties: the language iterator as a budget *)

Lemma fetches_app (cs cs' : list call) :
  fetches (cs ++ cs') = (fetches cs + fetches cs')%nat.
Proof. unfold fetches. now rewrite filter_app, length_app. Qed.

Lemma within_budget_refl (st : State) : within_budget st st.
Proof. intros items H. exists items. split; [exact H|lia]. Qed.

Lemma within_budget_trans (st1 st2 st3 : State) :
  within_budget st1 st2 -> within_budget st2 st3 -> within_budget st1 st3.
Proof.
  intros H12 H23 items H1.
  destruct (H12 items H1) as (items2 & H2 & L2).
  destruct (H23 items2 H2) as (items3 & H3 & L3).
  exists items3. split; [exact H3|lia].
Qed.

(** A successful membership test pulls at least the item it found. *)
Lemma iter_contains_found (x : string) (items : list string) :
  fst (iter_contains x items) = true ->
  (S (List.length (snd (iter_contains x items))) <= List.length items)%nat.
Proof.
  induction items as [|e rest IH]; simpl; [discriminate|].
  destruct (String.eqb x (str_lower e)); simpl; [lia|].
  intros H. specialize (IH H). lia.
Qed.

Lemma iter_contains_length (x : string) (items : list string) :
  (List.length (snd (iter_contains x items)) <= List.length items)%nat.
Proof.
  induction items as [|e rest IH]; simpl; [lia|].
  destruct (String.eqb x (str_lower e)); simpl; lia.
Qed.

Section Budget.
Variable env : Env.

Lemma frugal_ret {A : Type} (a : A) : frugal (ret a).
Proof. intro st. apply within_budget_refl. Qed.

Lemma frugal_bind {A B : Type} (m : M A) (k : A -> M B) :
  frugal m -> (forall a, frugal (k a)) -> frugal (bind m k).
Proof.
  intros Hm Hk st. unfold bind. specialize (Hm st).
  destruct (m st) as [[a|x|] st1]; simpl in *; [|exact Hm|exact Hm].
  eapply within_budget_trans; [exact Hm|apply Hk].
Qed.

Lemma frugal_remote {A : Type} (c : call)
    (answer : KalturaClient -> result A) :
  is_getUrl c = false -> frugal (remote c answer).
Proof.
  intros Hc st items H. unfold remote.
  destruct (answer (client (self st))); simpl; exists items;
    (split; [exact H|]); rewrite fetches_app; unfold fetches at 2; simpl;
    rewrite Hc; simpl; lia.
Qed.

(** Resolving an asset costs one [getUrl] call and leaves [self] alone. *)
Lemma chunk_asset_cost (fuel : nat) (e : KalturaMediaEntry)
    (a : KalturaCaptionAsset) (docs : list Document) (st : State) :
  self (snd (chunk_asset env fuel e a docs st)) = self st
  /\ fetches (calls (snd (chunk_asset env fuel e a docs st)))
     = S (fetches (calls st)).
Proof.
  unfold chunk_asset, bind, remote, get_self, lift.
  destruct (captionAsset_getUrl env _ _) as [url|x]; simpl.
  - destruct (requests_get_text env url) as [src|x]; simpl;
      (split; [reflexivity|]); rewrite !fetches_app; unfold fetches; simpl;
      lia.
  - split; [reflexivity|]. rewrite fetches_app. unfold fetches. simpl. lia.
Qed.

Lemma frugal_for_captionAssets (fuel : nat) (e : KalturaMediaEntry)
    (assets : list KalturaCaptionAsset) :
  forall docs, frugal (for_captionAssets env fuel e assets docs).
Proof.
  induction assets as [|a rest IH]; intros docs; simpl;
    [apply frugal_ret|].
  intros st. unfold bind at 1.
  destruct (languages (self st)) as [items|] eqn:El.
  - rewrite (language_skip_Some a st items El).
    pose proof (iter_contains_found (str_lower (languageCode a)) items) as Hf.
    pose proof (iter_contains_length (str_lower (languageCode a)) items)
      as Hl.
    destruct (iter_contains (str_lower (languageCode a)) items)
      as [found items1]. simpl in *.
    assert (Hskip : within_budget st (set_languages (Some items1) st)).
    { intros items0 H0. exists items1. split; [reflexivity|].
      simpl. rewrite El in H0. injection H0 as <-. lia. }
    destruct found; simpl.
    + destruct (caption_type_eqb (format a) SRT).
      * unfold bind.
        destruct (chunk_asset_cost fuel e a docs
                    (set_languages (Some items1) st)) as [Hs Hc].
        assert (Hstep : within_budget st
                   (snd (chunk_asset env fuel e a docs
                           (set_languages (Some items1) st)))).
        { intros items0 H0. exists items1. rewrite Hs, Hc.
          split; [reflexivity|]. simpl.
          rewrite El in H0. injection H0 as <-.
          specialize (Hf eq_refl). lia. }
        destruct (chunk_asset env fuel e a docs _) as [[d|x|] st2];
          simpl in *; try exact Hstep.
        eapply within_budget_trans; [exact Hstep|apply IH].
      * eapply within_budget_trans; [exact Hskip|apply IH].
    + eapply within_budget_trans; [exact Hskip|apply IH].
  - intros items H. congruence.
Qed.

Lemma frugal_fetchMediaCaption (fuel : nat) (e : KalturaMediaEntry) :
  frugal (fetchMediaCaption env fuel e).
Proof.
  unfold fetchMediaCaption.
  apply frugal_bind; [now apply frugal_remote|]. intros assets.
  apply frugal_for_captionAssets.
Qed.

Lemma frugal_for_mediaEntries (fuel : nat)
    (entries : list KalturaMediaEntry) :
  forall docs, frugal (for_mediaEntries env fuel entries docs).
Proof.
  induction entries as [|e rest IH]; intros docs; simpl;
    [apply frugal_ret|].
  apply frugal_bind; [apply frugal_fetchMediaCaption|]. intros d. apply IH.
Qed.

Lemma frugal_load (fuel : nat) : frugal (load env fuel).
Proof.
  unfold load. apply frugal_bind; [intro st; apply within_budget_refl|].
  intros l. destruct (mediaFilter l);
    [|intro st; apply within_budget_refl].
  apply frugal_bind; [now apply frugal_remote|]. intros entries.
  apply frugal_for_mediaEntries.
Qed.

End Budget.

(** X7: with an allow-list, every caption asset that is resolved uses up at
    least one item of the language iterator, and nothing puts items back:
    over a [load] the number of [getUrl] calls plus the items left is at
    most what it was before.  A loader built with [n] language codes
    therefore resolves at most [n] caption assets in all, over all media
    entries and all calls of [load]. *)
Theorem allow_list_bounds_resolved_assets :
  forall (env : Env) (fuel : nat) (st : State) (items : list string),
    languages (self st) = Some items ->
    exists items',
      languages (self (snd (load env fuel st))) = Some items'
      /\ (fetches (calls (snd (load env fuel st))) + List.length items'
          <= fetches (calls st) + List.length items)%nat.
Proof.
  intros env fuel st items H. exact (frugal_load env fuel st items H).
Qed.

Lemma allow_list_bounds_resolved_assets_witness :
  exists items',
    languages
      (self (snd (load demo_env 4
                    (mkState (mkLoader demo_client
                                (Some (setMediaEntry "0_abc123")) 2
                                demo_template (Some ["fr"; "en"])) []))))
    = Some items'
    /\ (fetches
          (calls (snd (load demo_env 4
                         (mkState (mkLoader demo_client
                                     (Some (setMediaEntry "0_abc123")) 2
                                     demo_template (Some ["fr"; "en"]))
                                  []))))
        + List.length items'
        <= fetches [] + List.length ["fr"; "en"])%nat.
Proof.
  apply (allow_list_bounds_resolved_assets demo_env 4
           (mkState (mkLoader demo_client (Some (setMediaEntry "0_abc123")) 2
                       demo_template (Some ["fr"; "en"])) [])
           ["fr"; "en"]).
  reflexivity.
Defined.

(** ** Further properties: how the documents are gathered *)

Lemma prepend_o_nil (o : outcome (list Document)) : prepend_o [] o = o.
Proof. destruct o; reflexivity. Qed.

Lemma prepend_o_app (d1 d2 : list Document) (o : outcome (list Document)) :
  prepend_o d1 (prepend_o d2 o) = prepend_o (d1 ++ d2) o.
Proof. destruct o; simpl; try reflexivity. now rewrite app_assoc. Qed.

Section Gathering.
Variable env : Env.
Variable fuel : nat.

Lemma chunk_while_acc (D : Z) (tmpl : string) (e : KalturaMediaEntry)
    (a : KalturaCaptionAsset) (captions : list SubRipItem) (n : nat) :
  forall index docs,
    chunk_while n D tmpl e a captions index docs
    = prepend_o docs (chunk_while n D tmpl e a captions index []).
Proof.
  induction n as [|n IH]; intros index docs; simpl; [reflexivity|].
  destruct (captionsSection D captions index) as [|f more];
    [simpl; now rewrite app_nil_r|].
  destruct (make_document _ _ _ _ _) as [doc|x]; [|reflexivity].
  rewrite (IH (index + 1) (docs ++ [doc])), (IH (index + 1) [doc]).
  simpl. now rewrite prepend_o_app.
Qed.

Lemma chunk_asset_acc (e : KalturaMediaEntry) (a : KalturaCaptionAsset)
    (docs : list Document) (st : State) :
  chunk_asset env fuel e a docs st
  = prepend docs (chunk_asset env fuel e a [] st).
Proof.
  unfold chunk_asset, bind, remote, get_self, lift, prepend.
  destruct (captionAsset_getUrl env _ _) as [url|x]; [|reflexivity].
  destruct (requests_get_text env url) as [src|x]; [|reflexivity].
  simpl. now rewrite chunk_while_acc.
Qed.

Lemma for_captionAssets_acc (e : KalturaMediaEntry)
    (assets : list KalturaCaptionAsset) :
  forall docs st,
    for_captionAssets env fuel e assets docs st
    = prepend docs (for_captionAssets env fuel e assets [] st).
Proof.
  induction assets as [|a rest IH]; intros docs st; simpl.
  - unfold ret, prepend. simpl. now rewrite app_nil_r.
  - unfold bind at 1 3.
    destruct (language_skip a st) as [[skip|x|] st1]; try reflexivity.
    destruct skip; [apply IH|].
    destruct (caption_type_eqb (format a) SRT); [|apply IH].
    unfold bind. rewrite (chunk_asset_acc e a docs st1). unfold prepend.
    destruct (chunk_asset env fuel e a [] st1) as [[d|x|] st2]; simpl;
      try reflexivity.
    rewrite (IH (docs ++ d) st2), (IH d st2). unfold prepend. simpl.
    now rewrite prepend_o_app.
Qed.

Lemma for_mediaEntries_acc (entries : list KalturaMediaEntry) :
  forall docs st,
    for_mediaEntries env fuel entries docs st
    = prepend docs (for_mediaEntries env fuel entries [] st).
Proof.
  induction entries as [|e rest IH]; intros docs st; simpl.
  - unfold ret, prepend. simpl. now rewrite app_nil_r.
  - unfold bind.
    destruct (fetchMediaCaption env fuel e st) as [[d|x|] st1];
      try reflexivity.
    rewrite (IH (docs ++ d) st1), (IH d st1). unfold prepend. simpl.
    now rewrite prepend_o_app.
Qed.

Lemma for_mediaEntries_app (es1 es2 : list KalturaMediaEntry) :
  forall docs st,
    for_mediaEntries env fuel (es1 ++ es2) docs st
    = (d <- for_mediaEntries env fuel es1 docs ;;
       for_mediaEntries env fuel es2 d) st.
Proof.
  induction es1 as [|e rest IH]; intros docs st; simpl; [reflexivity|].
  unfold bind.
  destruct (fetchMediaCaption env fuel e st) as [[d|x|] st1];
    try reflexivity.
  rewrite IH. reflexivity.
Qed.

End Gathering.

(** X8: what [load] returns is, in the order of the media listing, the
    documents of the first entries followed by the documents of the later
    ones, each group being what the loop returns on its own from the state
    the earlier entries left: [documents.extend] only appends. *)
Theorem load_loop_concatenates :
  forall (env : Env) (fuel : nat) (es1 es2 : list KalturaMediaEntry)
         (st st1 st2 : State) (d1 d2 : list Document),
    for_mediaEntries env fuel es1 [] st = (Return d1, st1) ->
    for_mediaEntries env fuel es2 [] st1 = (Return d2, st2) ->
    for_mediaEntries env fuel (es1 ++ es2) [] st = (Return (d1 ++ d2), st2).
Proof.
  intros env fuel es1 es2 st st1 st2 d1 d2 H1 H2.
  rewrite for_mediaEntries_app. unfold bind. rewrite H1.
  rewrite for_mediaEntries_acc, H2. reflexivity.
Qed.

Lemma load_loop_concatenates_witness :
  exists d1 d2 st2,
    for_mediaEntries demo_env 4 ([demo_entry] ++ [demo_entry]) []
      (mkState demo_loader []) = (Return (d1 ++ d2), st2)
    /\ List.length d1 = 4%nat /\ List.length d2 = 4%nat.
Proof.
  do 3 eexists. split.
  - eapply (load_loop_concatenates demo_env 4 [demo_entry] [demo_entry]
              (mkState demo_loader [])); reflexivity.
  - split; reflexivity.
Defined.

(** X9: an exception raised while an entry is processed ends [load] with
    that exception: the documents gathered so far are not returned and the
    entries that follow are not touched, the state being the one at the
    raise. *)
Theorem exception_ends_the_load :
  forall (env : Env) (fuel : nat) (st st' : State)
         (f : KalturaMediaEntryFilter) (es1 es2 : list KalturaMediaEntry)
         (x : exn),
    mediaFilter (self st) = Some f ->
    media_list env (client (self st)) f = Ok (es1 ++ es2) ->
    for_mediaEntries env fuel es1 [] (logged st [CallMediaList f])
      = (Raise x, st') ->
    load env fuel st = (Raise x, st').
Proof.
  intros env fuel st st' f es1 es2 x Hf Hm Hr.
  unfold load, bind at 1, get_self. rewrite Hf.
  unfold bind, remote. rewrite Hm.
  change (mkState (self st) (calls st ++ [CallMediaList f]))
    with (logged st [CallMediaList f]).
  rewrite for_mediaEntries_app. unfold bind. rewrite Hr. reflexivity.
Qed.

Lemma exception_ends_the_load_witness :
  load broken_env 4 (mkState demo_loader [])
  = (Raise (RemoteError "ENTRY_ID_NOT_FOUND"),
     mkState demo_loader
       [CallMediaList (setMediaEntry "0_abc123");
        CallCaptionAssetList "0_abc123"; CallGetUrl "1_cap"]).
Proof.
  apply (exception_ends_the_load broken_env 4 (mkState demo_loader []) _
           (setMediaEntry "0_abc123") [demo_entry] [second_entry]).
  - reflexivity.
  - reflexivity.
  - reflexivity.
Defined.

(** ** Further properties: where a document comes from *)

Section Provenance.
Variable env : Env.
Variable fuel : nat.

Lemma make_document_from (tmpl : string) (e : KalturaMediaEntry)
    (a : KalturaCaptionAsset) (sec : list SubRipItem) (t : SubRipTime)
    (doc : Document) :
  make_document tmpl e a sec t = Ok doc -> doc_from e a doc.
Proof.
  intros H. apply make_document_Ok in H.
  destruct H as (_ & _ & _ & Hf & Hm & Hc & Hl & Hs).
  unfold doc_from. auto.
Qed.

Lemma chunk_while_from (D : Z) (tmpl : string) (e : KalturaMediaEntry)
    (a : KalturaCaptionAsset) (captions : list SubRipItem) (n : nat) :
  forall index r,
    chunk_while n D tmpl e a captions index [] = Return r ->
    Forall (doc_from e a) r.
Proof.
  induction n as [|n IH]; intros index r; simpl; [discriminate|].
  destruct (captionsSection D captions index) as [|f more].
  - intros [= <-]. constructor.
  - destruct (make_document _ _ _ _ _) as [doc|x] eqn:E; [|discriminate].
    rewrite chunk_while_acc.
    destruct (chunk_while n D tmpl e a captions (index + 1) [])
      as [new|x|] eqn:En; simpl; try discriminate.
    intros [= <-]. constructor.
    + eapply make_document_from. exact E.
    + eapply IH. exact En.
Qed.

Lemma chunk_asset_from (e : KalturaMediaEntry) (a : KalturaCaptionAsset)
    (st st' : State) (r : list Document) :
  chunk_asset env fuel e a [] st = (Return r, st') ->
  Forall (doc_from e a) r.
Proof.
  unfold chunk_asset, bind, remote, get_self, lift.
  destruct (captionAsset_getUrl env _ _) as [url|x]; [|discriminate].
  destruct (requests_get_text env url) as [src|x]; [|discriminate].
  simpl. intros [= H _]. eapply chunk_while_from. exact H.
Qed.

Lemma for_captionAssets_from (e : KalturaMediaEntry)
    (assets : list KalturaCaptionAsset) :
  forall st st' r,
    for_captionAssets env fuel e assets [] st = (Return r, st') ->
    Forall (fun d => exists a, In a assets /\ format a = SRT
                               /\ doc_from e a d) r.
Proof.
  induction assets as [|a rest IH]; intros st st' r; simpl.
  - intros [= <- _]. constructor.
  - assert (Hweak : forall st1 r1,
               for_captionAssets env fuel e rest [] st1 = (Return r1, st') ->
               Forall (fun d => exists a0, In a0 (a :: rest)
                                           /\ format a0 = SRT
                                           /\ doc_from e a0 d) r1).
    { intros st1 r1 H1. specialize (IH _ _ _ H1).
      eapply Forall_impl; [|exact IH].
      intros d (a0 & Hin & Hfmt & Hd). exists a0. split; [now right|auto]. }
    unfold bind at 1.
    destruct (language_skip a st) as [[skip|x|] st1]; try discriminate.
    destruct skip; [apply Hweak|].
    destruct (caption_type_eqb (format a) SRT) eqn:Ef; [|apply Hweak].
    apply caption_type_eqb_eq in Ef.
    unfold bind.
    destruct (chunk_asset env fuel e a [] st1) as [[d|x|] st2] eqn:Ec;
      try discriminate.
    rewrite for_captionAssets_acc. unfold prepend.
    destruct (for_captionAssets env fuel e rest [] st2) as [[r2|x|] st3]
      eqn:Er; simpl; try discriminate.
    intros [= <- <-]. apply Forall_app. split.
    + apply chunk_asset_from in Ec.
      eapply Forall_impl; [|exact Ec].
      intros d0 Hd. exists a. split; [now left|auto].
    + eapply Hweak. exact Er.
Qed.

Lemma for_mediaEntries_from (entries : list KalturaMediaEntry) :
  forall st st' r,
    for_mediaEntries env fuel entries [] st = (Return r, st') ->
    Forall (provenance env (client (self st)) entries) r.
Proof.
  induction entries as [|e rest IH]; intros st st' r; simpl.
  - intros [= <- _]. constructor.
  - unfold bind.
    destruct (fetchMediaCaption env fuel e st) as [[d|x|] st1] eqn:Ef;
      try discriminate.
    rewrite for_mediaEntries_acc. unfold prepend.
    destruct (for_mediaEntries env fuel rest [] st1) as [[r2|x|] st2]
      eqn:Er; simpl; try discriminate.
    intros [= <- <-].
    pose proof (keeps_fetchMediaCaption env fuel e st) as Hk.
    rewrite Ef in Hk. destruct Hk as (Hclient & _). simpl in Hclient.
    apply Forall_app. split.
    + unfold fetchMediaCaption, bind, remote in Ef.
      destruct (captionAsset_list env (client (self st)) (entry_id e))
        as [assets|x] eqn:Ea; [|discriminate].
      apply for_captionAssets_from in Ef.
      eapply Forall_impl; [|exact Ef].
      intros d0 (a & Hin & Hfmt & Hd).
      exists e, assets, a. split; [now left|auto].
    + specialize (IH _ _ _ Er). rewrite Hclient in IH.
      eapply Forall_impl; [|exact IH].
      intros d0 (e0 & assets & a & Hin & Hrest).
      exists e0, assets, a. split; [now right|exact Hrest].
Qed.

End Provenance.

(** X10: every document [load] returns comes from an SRT caption asset
    listed for one of the listed media entries: its [media_id] and [filename]
    are the id and name of that entry, its [caption_id] the id of that asset,
    its [language_code] the asset's code in its original case, and its
    [caption_format] is [SRT]. *)
Theorem load_documents_provenance :
  forall (env : Env) (fuel : nat) (st st' : State) (r : list Document),
    load env fuel st = (Return r, st') ->
    exists f entries,
      mediaFilter (self st) = Some f
      /\ media_list env (client (self st)) f = Ok entries
      /\ Forall (provenance env (client (self st)) entries) r.
Proof.
  intros env fuel st st' r. unfold load, bind at 1, get_self.
  destruct (mediaFilter (self st)) as [f|]; [|discriminate].
  unfold bind, remote.
  destruct (media_list env (client (self st)) f) as [entries|x] eqn:Em;
    [|discriminate].
  intros H. exists f, entries. split; [reflexivity|]. split; [exact Em|].
  apply for_mediaEntries_from in H. exact H.
Qed.

Lemma load_documents_provenance_witness :
  exists r st',
    load demo_env 4 (mkState demo_loader []) = (Return r, st')
    /\ List.length r = 4%nat
    /\ exists f entries,
         mediaFilter demo_loader = Some f
         /\ media_list demo_env (client demo_loader) f = Ok entries
         /\ Forall (provenance demo_env (client demo_loader) entries) r.
Proof.
  assert (E : exists r st',
             load demo_env 4 (mkState demo_loader []) = (Return r, st')
             /\ List.length r = 4%nat)
    by (do 2 eexists; split; reflexivity).
  destruct E as (r & st' & E & L). exists r, st'.
  split; [exact E|]. split; [exact L|].
  exact (load_documents_provenance demo_env 4 (mkState demo_loader []) st' r
           E).
Defined.

(** ** Further properties: order, span and number of the chunks *)

Lemma first_start_In (sec : list SubRipItem) :
  sec <> [] ->
  In (hd no_item sec) sec /\ first_start sec = start (hd no_item sec).
Proof.
  destruct sec as [|c more]; [congruence|]. intros _. simpl. auto.
Qed.

Section ChunkOrder.
Variables (D : Z) (captions : list SubRipItem) (fuel : nat)
          (secs : list (list SubRipItem)).
Hypothesis D_pos : 0 < D.
Hypothesis well_formed : forall c, In c captions -> start c <= end_ c.
Hypothesis loop_ends : sections fuel D captions 0 = Some secs.

Lemma section_head (n : nat) :
  (n < List.length secs)%nat ->
  In (hd no_item (nth n secs [])) captions
  /\ D * Z.of_nat n * 60000 < start (hd no_item (nth n secs []))
  /\ end_ (hd no_item (nth n secs [])) < (D * Z.of_nat n + D) * 60000
  /\ first_start (nth n secs []) = start (hd no_item (nth n secs [])).
Proof.
  intros Hn.
  destruct (sections_nth D captions fuel 0 secs n loop_ends Hn) as [E Hne].
  destruct (first_start_In _ Hne) as [Hin Hfs].
  rewrite E in Hin at 2. apply captionsSection_In in Hin.
  replace (0 + Z.of_nat n) with (Z.of_nat n) in Hin by lia.
  tauto.
Qed.

Lemma first_starts_increase (n m : nat) :
  (n < m)%nat -> (m < List.length secs)%nat ->
  first_start (nth n secs []) < first_start (nth m secs []).
Proof.
  intros Hnm Hm.
  destruct (section_head n ltac:(lia)) as (Hc & _ & Hhi & ->).
  destruct (section_head m Hm) as (_ & Hlo & _ & ->).
  specialize (well_formed _ Hc). nia.
Qed.

Lemma heads_NoDup : NoDup (map (hd no_item) secs).
Proof.
  apply (NoDup_nth _ no_item). rewrite length_map. intros i j Hi Hj.
  assert (Hmap : forall k, nth k (map (hd no_item) secs) no_item
                           = hd no_item (nth k secs []))
    by (intro k; exact (map_nth (hd no_item) secs [] k)).
  rewrite !Hmap. intros Heq.
  destruct (Nat.lt_trichotomy i j) as [H|[H|H]]; [|exact H|].
  - pose proof (first_starts_increase i j H Hj) as Hlt.
    destruct (section_head i Hi) as (_ & _ & _ & Ei).
    destruct (section_head j Hj) as (_ & _ & _ & Ej).
    rewrite Ei, Ej, Heq in Hlt. lia.
  - pose proof (first_starts_increase j i H Hi) as Hlt.
    destruct (section_head i Hi) as (_ & _ & _ & Ei).
    destruct (section_head j Hj) as (_ & _ & _ & Ej).
    rewrite Ei, Ej, Heq in Hlt. lia.
Qed.

Lemma heads_incl : incl (map (hd no_item) secs) captions.
Proof.
  intros c Hc. apply in_map_iff in Hc. destruct Hc as (sec & <- & Hsec).
  destruct (In_nth _ _ [] Hsec) as (n & Hn & <-).
  now destruct (section_head n Hn).
Qed.

Lemma sections_length_le :
  (List.length secs <= List.length captions)%nat.
Proof.
  rewrite <- (length_map (hd no_item) secs).
  apply NoDup_incl_length; [apply heads_NoDup|apply heads_incl].
Qed.

End ChunkOrder.

(** X11: for a positive chunk duration and cues that do not end before they
    start, the chunks of a track are emitted in strictly increasing order of
    start offset, and there are at most as many chunks as the track has
    cues (none for a track without cues). *)
Theorem chunk_starts_strictly_increase :
  forall (D : Z) (captions : list SubRipItem) (fuel : nat)
         (urlTemplate_ : string) (mediaEntry : KalturaMediaEntry)
         (captionAsset : KalturaCaptionAsset),
    0 < D ->
    (forall c, In c captions -> start c <= end_ c) ->
    (enough_fuel D captions <= fuel)%nat ->
    exists secs,
      sections fuel D captions 0 = Some secs
      /\ chunk_while fuel D urlTemplate_ mediaEntry captionAsset captions 0 []
         = emit urlTemplate_ mediaEntry captionAsset secs []
      /\ (forall n m, (n < m)%nat -> (m < List.length secs)%nat ->
            first_start (nth n secs []) < first_start (nth m secs []))
      /\ (List.length secs <= List.length captions)%nat.
Proof.
  intros D captions fuel tmpl e a HD Hwf Hfuel.
  destruct (sections_terminate D captions fuel HD Hfuel) as [secs Hs].
  exists secs. split; [exact Hs|]. split; [now apply chunk_while_emit|].
  split.
  - intros n m. eapply first_starts_increase; eassumption.
  - eapply sections_length_le; eassumption.
Qed.

Lemma chunk_starts_strictly_increase_witness :
  exists secs,
    sections 4 2 three_cue_track 0 = Some secs
    /\ chunk_while 4 2 demo_template demo_entry demo_asset three_cue_track
         0 []
       = emit demo_template demo_entry demo_asset secs []
    /\ (forall n m, (n < m)%nat -> (m < List.length secs)%nat ->
          first_start (nth n secs []) < first_start (nth m secs []))
    /\ (List.length secs <= List.length three_cue_track)%nat.
Proof.
  apply (chunk_starts_strictly_increase 2 three_cue_track 4).
  - lia.
  - intros c [<-|[<-|[<-|[]]]]; simpl; lia.
  - vm_compute. lia.
Defined.

(** X12: every chunk lies inside one window: between the start of any of
    its cues and the end of any of its cues there is less than the chunk
    duration, and all its cues start after the window index times the
    duration. *)
Theorem chunk_spans_less_than_duration :
  forall (D : Z) (captions : list SubRipItem) (fuel : nat)
         (secs : list (list SubRipItem)) (n : nat) (c1 c2 : SubRipItem),
    sections fuel D captions 0 = Some secs ->
    In c1 (nth n secs []) ->
    In c2 (nth n secs []) ->
    end_ c2 - start c1 < of_minutes D
    /\ of_minutes (D * Z.of_nat n) < start c1.
Proof.
  intros D captions fuel secs n c1 c2 Hs H1 H2.
  assert (Hn : (n < List.length secs)%nat).
  { destruct (Nat.lt_ge_cases n (List.length secs)) as [H|H]; [exact H|].
    rewrite nth_overflow in H1 by exact H. destruct H1. }
  destruct (sections_nth D captions fuel 0 secs n Hs Hn) as [E _].
  rewrite E in H1, H2. apply captionsSection_In in H1, H2.
  rewrite !of_minutes_eq. lia.
Qed.

Lemma chunk_spans_less_than_duration_witness :
  end_ (mkItem 110000 113000 "b") - start (mkItem 5000 8000 "a")
    < of_minutes 2
  /\ of_minutes (2 * Z.of_nat 0) < start (mkItem 5000 8000 "a").
Proof.
  apply (chunk_spans_less_than_duration 2 three_cue_track 4
           [[mkItem 5000 8000 "a"; mkItem 110000 113000 "b"];
            [mkItem 150000 153000 "c"]] 0).
  - reflexivity.
  - simpl. now left.
  - simpl. right. now left.
Defined.

Lemma filter_all {A : Type} (p : A -> bool) (l : list A) :
  (forall x, In x l -> p x = true) -> filter p l = l.
Proof.
  induction l as [|x xs IH]; simpl; [reflexivity|]. intros H.
  rewrite (H x (or_introl eq_refl)), IH; [reflexivity|].
  intros y Hy. apply H. now right.
Qed.

Lemma filter_none {A : Type} (p : A -> bool) (l : list A) :
  (forall x, In x l -> p x = false) -> filter p l = [].
Proof.
  induction l as [|x xs IH]; simpl; [reflexivity|]. intros H.
  rewrite (H x (or_introl eq_refl)). apply IH.
  intros y Hy. apply H. now right.
Qed.

(** X13: a non-empty track all of whose cues start after 0:00.000, do not
    end before they start, and end before the chunk duration gives exactly
    one document, built from the whole track (or raises what [format] raises
    on the URL template). *)
Theorem single_window_track_single_document :
  forall (D : Z) (captions : list SubRipItem) (fuel : nat)
         (urlTemplate_ : string) (mediaEntry : KalturaMediaEntry)
         (captionAsset : KalturaCaptionAsset),
    captions <> [] ->
    (forall c, In c captions ->
               0 < start c /\ start c <= end_ c /\ end_ c < of_minutes D) ->
    chunk_while (S (S fuel)) D urlTemplate_ mediaEntry captionAsset
      captions 0 []
    = match make_document urlTemplate_ mediaEntry captionAsset captions
              (first_start captions) with
      | Ok doc => Return [doc]
      | Err x => Raise x
      end.
Proof.
  intros D captions fuel tmpl e a Hne Hin.
  assert (W0 : captionsSection D captions 0 = captions).
  { unfold captionsSection. rewrite slice_as_one_filter. apply filter_all.
    intros c Hc. destruct (Hin c Hc) as (H0 & _ & H1).
    apply andb_true_iff. rewrite !Z.ltb_lt, !of_minutes_eq in *. lia. }
  assert (W1 : captionsSection D captions (0 + 1) = []).
  { unfold captionsSection. rewrite slice_as_one_filter. apply filter_none.
    intros c Hc. destruct (Hin c Hc) as (H0 & Hwf & H1).
    apply andb_false_iff. left. apply Z.ltb_ge.
    rewrite !of_minutes_eq in *. lia. }
  cbn [chunk_while]. rewrite W0.
  destruct captions as [|first more]; [congruence|].
  cbn [first_start].
  destruct (make_document tmpl e a (first :: more) (start first));
    [|reflexivity].
  rewrite W1. reflexivity.
Qed.

Lemma single_window_track_single_document_witness :
  chunk_while 2 2 demo_template demo_entry demo_asset
    [mkItem 5000 8000 "a"; mkItem 110000 113000 "b"] 0 []
  = match make_document demo_template demo_entry demo_asset
            [mkItem 5000 8000 "a"; mkItem 110000 113000 "b"]
            (first_start [mkItem 5000 8000 "a"; mkItem 110000 113000 "b"])
    with
    | Ok doc => Return [doc]
    | Err x => Raise x
    end.
Proof.
  apply (single_window_track_single_document 2
           [mkItem 5000 8000 "a"; mkItem 110000 113000 "b"] 0).
  - discriminate.
  - intros c [<-|[<-|[]]]; vm_compute; repeat split; congruence.
Defined.

(** ** Further properties: a template with an unknown field *)

Lemma str_append_nil_r (s : string) : String.append s EmptyString = s.
Proof. induction s as [|c r IH]; simpl; [reflexivity|now rewrite IH]. Qed.

Lemma str_append_assoc (a b c : string) :
  String.append (String.append a b) c = String.append a (String.append b c).
Proof. induction a as [|x r IH]; simpl; [reflexivity|now rewrite IH]. Qed.

Section UnknownField.
Variables (mediaId : string) (startSeconds : Z).

Lemma format_scan_field (field : string) :
  forall acc rest,
    has_char is_brace field = false ->
    format_scan mediaId startSeconds (Some acc)
      (String.append field (String "}" rest))
    = match field_value mediaId startSeconds (String.append acc field) with
      | Err e => Err e
      | Ok v =>
          match format_scan mediaId startSeconds None rest with
          | Err e => Err e
          | Ok t => Ok (String.append v t)
          end
      end.
Proof.
  induction field as [|c r IH]; intros acc rest Hb.
  - simpl. now rewrite str_append_nil_r.
  - simpl in Hb. apply orb_false_iff in Hb. destruct Hb as [Hc Hr].
    unfold is_brace in Hc. apply orb_false_iff in Hc.
    destruct Hc as [Ho Hcl].
    simpl. rewrite Hcl, Ho, (IH _ _ Hr), str_append_assoc. reflexivity.
Qed.

Lemma format_scan_open (field rest : string) :
  has_char is_brace field = false ->
  format_scan mediaId startSeconds None
    (String "{" (String.append field (String "}" rest)))
  = format_scan mediaId startSeconds (Some EmptyString)
      (String.append field (String "}" rest)).
Proof.
  intros Hb. destruct field as [|c r]; [reflexivity|].
  simpl in Hb. apply orb_false_iff in Hb. destruct Hb as [Hc _].
  unfold is_brace in Hc. apply orb_false_iff in Hc. destruct Hc as [Ho _].
  cbn [format_scan String.append]. cbn [Ascii.eqb Bool.eqb].
  change (Ascii.eqb "{" "{") with true. cbv iota. rewrite Ho. reflexivity.
Qed.

Lemma field_value_unknown (field : string) :
  is_ascii field = true ->
  has_char field_syntax field = false ->
  all_digits field = false \/ (String.length field <= 9)%nat ->
  field <> "mediaId" -> field <> "startSeconds" ->
  field_value mediaId startSeconds field = Err (unknown_field_error field).
Proof.
  intros Ha Hs Hd Hm Ht. unfold field_value, unknown_field_error.
  rewrite Hs, Ha. cbn [negb orb].
  apply String.eqb_neq in Hm, Ht. rewrite Hm, Ht.
  destruct (all_digits field); [|reflexivity].
  destruct Hd as [Hd|Hd]; [discriminate|].
  apply Nat.leb_le in Hd. now rewrite Hd.
Qed.

Lemma str_format_unknown_field (before field rest : string) :
  is_ascii field = true ->
  has_char is_brace field = false ->
  has_char field_syntax field = false ->
  all_digits field = false \/ (String.length field <= 9)%nat ->
  field <> "mediaId" -> field <> "startSeconds" ->
  str_format (template_with_field before field rest) mediaId startSeconds
  = Err (unknown_field_error field).
Proof.
  intros Ha Hb Hs Hd Hm Ht. unfold str_format, template_with_field.
  rewrite format_scan_literal, format_scan_open by exact Hb.
  rewrite format_scan_field by exact Hb. simpl String.append.
  now rewrite field_value_unknown.
Qed.

End UnknownField.

(** X14: a URL template that names an ASCII field other than [mediaId] and
    [startSeconds], without conversion, format specification, attribute or
    index access, is found out only when the first chunk is built: the loop
    raises [KeyError] with the field name ([IndexError] for an empty field
    or one of at most nine digits) as soon as the first window selects a
    cue, and returns normally, with no document added, when it selects
    none. *)
Theorem unknown_template_field_raises_at_first_chunk :
  forall (before field rest : string) (D : Z) (fuel : nat)
         (mediaEntry : KalturaMediaEntry) (captionAsset : KalturaCaptionAsset)
         (captions : list SubRipItem) (docs : list Document),
    is_ascii field = true ->
    has_char is_brace field = false ->
    has_char field_syntax field = false ->
    all_digits field = false \/ (String.length field <= 9)%nat ->
    field <> "mediaId" ->
    field <> "startSeconds" ->
    chunk_while (S fuel) D (template_with_field before field rest)
      mediaEntry captionAsset captions 0 docs
    = match captionsSection D captions 0 with
      | [] => Return docs
      | _ :: _ => Raise (unknown_field_error field)
      end.
Proof.
  intros before field rest D fuel e a captions docs Ha Hb Hs Hd Hm Ht.
  cbn [chunk_while].
  destruct (captionsSection D captions 0) as [|first more]; [reflexivity|].
  unfold make_document.
  now rewrite str_format_unknown_field.
Qed.

Lemma unknown_template_field_raises_at_first_chunk_witness :
  chunk_while 1 2 (template_with_field "https://x.test/" "entryId" "?t=0")
    demo_entry demo_asset three_cue_track 0 []
  = Raise (KeyError "entryId").
Proof.
  apply (unknown_template_field_raises_at_first_chunk "https://x.test/"
           "entryId" "?t=0" 2 0 demo_entry demo_asset three_cue_track []).
  - reflexivity.
  - reflexivity.
  - reflexivity.
  - left. reflexivity.
  - discriminate.
  - discriminate.
Defined.

(** ** Further properties: the timestamp of a document *)

Lemma str_length_append (a b : string) :
  String.length (String.append a b)
  = (String.length a + String.length b)%nat.
Proof. induction a as [|c r IH]; simpl; [reflexivity|now rewrite IH]. Qed.

Lemma substring_prefix (a b : string) :
  String.substring 0 (String.length a) (String.append a b) = a.
Proof.
  induction a as [|c r IH]; simpl; [now destruct b|now rewrite IH].
Qed.

Lemma drop_last_suffix (a b : string) (n : nat) :
  String.length b = n -> drop_last n (String.append a b) = a.
Proof.
  intros <-. unfold drop_last. rewrite str_length_append.
  replace (String.length a + String.length b - String.length b)%nat
    with (String.length a) by lia.
  apply substring_prefix.
Qed.

(** Milliseconds always print as three digits. *)
Lemma pad0_3_length (z : Z) :
  0 <= z < 1000 -> String.length (pad0 3 z) = 3%nat.
Proof.
  intros Hz.
  assert (H : forallb
                (fun n => Nat.eqb (String.length (pad0 3 (Z.of_nat n))) 3)
                (seq 0 1000) = true) by (vm_compute; reflexivity).
  rewrite forallb_forall in H.
  specialize (H (Z.to_nat z)). rewrite Z2Nat.id in H by lia.
  apply Nat.eqb_eq. apply H. apply in_seq. lia.
Qed.

Lemma time_str_split (t : SubRipTime) :
  0 <= t ->
  time_str t
  = String.append (hms t)
      (String.append "," (pad0 3 (milliseconds t))).
Proof.
  intros Ht. unfold time_str, hms.
  assert (E : (t <? 0) = false) by (apply Z.ltb_ge; exact Ht).
  rewrite E. rewrite !str_append_assoc. reflexivity.
Qed.

Lemma whole_seconds (t : SubRipTime) :
  hours t * 3600 + minutes t * 60 + seconds t = t / 1000.
Proof.
  unfold hours, minutes, seconds, HOURS_RATIO, MINUTES_RATIO, SECONDS_RATIO.
  change (1000 * 60 * 60) with 3600000. change (1000 * 60) with 60000.
  Z.div_mod_to_equations. lia.
Qed.

(** X15: the [timestamp] of a document is the start of its first cue as
    [hh:mm:ss] (a negative start shown as zero): the slice [[0:-4]] removes
    exactly the comma and the three millisecond digits, nothing is rounded.
    The seconds put in the [source] URL are the same instant: hours, minutes
    and seconds of the start add up to the [startSeconds] value. *)
Theorem document_timestamp_is_hms :
  forall (urlTemplate_ : string) (mediaEntry : KalturaMediaEntry)
         (captionAsset : KalturaCaptionAsset) (sec : list SubRipItem)
         (t : SubRipTime) (doc : Document),
    make_document urlTemplate_ mediaEntry captionAsset sec t = Ok doc ->
    timestamp doc = hms (Z.max 0 t)
    /\ str_format urlTemplate_ (entry_id mediaEntry)
         (hours t * 3600 + minutes t * 60 + seconds t) = Ok (source doc).
Proof.
  intros tmpl e a sec t doc H. apply make_document_Ok in H.
  destruct H as (Hsrc & _ & Hts & _). split.
  - rewrite Hts.
    assert (Hmax : time_str t = time_str (Z.max 0 t)).
    { unfold time_str. destruct (t <? 0) eqn:E.
      - apply Z.ltb_lt in E. rewrite Z.max_l by lia. reflexivity.
      - assert (0 <= t) by (apply Z.ltb_ge; exact E).
        rewrite Z.max_r by lia. now rewrite E. }
    rewrite Hmax, time_str_split by lia.
    apply drop_last_suffix. simpl String.length. f_equal.
    apply pad0_3_length. unfold milliseconds, SECONDS_RATIO.
    apply Z.mod_pos_bound. lia.
  - rewrite whole_seconds. exact Hsrc.
Qed.

Lemma document_timestamp_is_hms_witness :
  timestamp
    (mkDocument "later" "https://x.test/0_abc123?t=125" "Lecture 1"
       "0_abc123" "00:02:05" "1_cap" "en" "SRT")
  = hms (Z.max 0 125700)
  /\ str_format demo_template (entry_id demo_entry)
       (hours 125700 * 3600 + minutes 125700 * 60 + seconds 125700)
     = Ok (source
             (mkDocument "later" "https://x.test/0_abc123?t=125" "Lecture 1"
                "0_abc123" "00:02:05" "1_cap" "en" "SRT")).
Proof.
  apply (document_timestamp_is_hms demo_template demo_entry demo_asset
           [mkItem 125700 128000 "later"] 125700).
  reflexivity.
Defined.

(** ** Further properties: one language test *)

Lemma lower_upper_char (c : ascii) :
  lower_char (upper_char c) = lower_char c.
Proof.
  destruct c as [[] [] [] [] [] [] [] []]; reflexivity.
Qed.

Lemma str_lower_upper (s : string) : str_lower (str_upper s) = str_lower s.
Proof.
  induction s as [|c r IH]; simpl; [reflexivity|].
  now rewrite lower_upper_char, IH.
Qed.

Lemma iter_contains_true (x : string) (items rest : list string) :
  iter_contains x items = (true, rest) <->
  exists before e,
    items = before ++ e :: rest /\ str_lower e = x
    /\ forall b, In b before -> str_lower b <> x.
Proof.
  revert rest. induction items as [|i more IH]; intros rest; simpl.
  - split; [discriminate|].
    intros (before & e & H & _). destruct before; discriminate.
  - destruct (String.eqb x (str_lower i)) eqn:E.
    + apply String.eqb_eq in E. split.
      * intros [= <-]. exists [], i. simpl. repeat split; auto.
      * intros (before & e & H & He & Hb).
        destruct before as [|b0 before'].
        -- simpl in H. injection H as _ <-. reflexivity.
        -- simpl in H. injection H as <- _.
           exfalso. apply (Hb i); [now left|auto].
    + apply String.eqb_neq in E. rewrite IH. split.
      * intros (before & e & -> & He & Hb).
        exists (i :: before), e. simpl. repeat split; auto.
        intros b [<-|Hin]; [congruence|now apply Hb].
      * intros (before & e & H & He & Hb).
        destruct before as [|b0 before'].
        -- simpl in H. injection H as -> _. congruence.
        -- simpl in H. injection H as <- ->.
           exists before', e. repeat split; auto.
           intros b Hin. apply Hb. now right.
Qed.

Lemma iter_contains_false (x : string) (items rest : list string) :
  iter_contains x items = (false, rest) <->
  rest = [] /\ forall b, In b items -> str_lower b <> x.
Proof.
  induction items as [|i more IH]; simpl.
  - split; [intros [= <-]; split; [reflexivity|intros b []]|].
    now intros [-> _].
  - destruct (String.eqb x (str_lower i)) eqn:E.
    + apply String.eqb_eq in E. split; [discriminate|].
      intros [_ H]. exfalso. apply (H i); [now left|auto].
    + apply String.eqb_neq in E. rewrite IH. split.
      * intros [-> H]. split; [reflexivity|].
        intros b [<-|Hin]; [congruence|now apply H].
      * intros [-> H]. split; [reflexivity|].
        intros b Hin. apply H. now right.
Qed.

(** X16: one language test, on what the iterator still holds, for ASCII
    language codes on both sides.  The asset is kept exactly when an item
    left equals its language code up to ASCII case, and then the items up to
    and including the first such item are gone; it is skipped exactly when
    no item left matches, and then nothing is left.  Upper-casing the
    asset's code does not change the test. *)
Theorem language_test_on_remaining_items :
  forall (a : KalturaCaptionAsset) (st : State) (items : list string),
    is_ascii (languageCode a) = true ->
    Forall (fun item => is_ascii item = true) items ->
    languages (self st) = Some items ->
    (forall st',
        language_skip a st = (Return false, st') <->
        exists before e rest,
          items = before ++ e :: rest
          /\ str_lower e = str_lower (languageCode a)
          /\ (forall b, In b before ->
                        str_lower b <> str_lower (languageCode a))
          /\ st' = set_languages (Some rest) st)
    /\ (forall st',
           language_skip a st = (Return true, st') <->
           (forall b, In b items ->
                      str_lower b <> str_lower (languageCode a))
           /\ st' = set_languages (Some []) st)
    /\ str_lower (str_upper (languageCode a)) = str_lower (languageCode a).
Proof.
  intros a st items _ _ H. rewrite (language_skip_Some a st items H).
  destruct (iter_contains (str_lower (languageCode a)) items)
    as [found rest0] eqn:E. simpl.
  split; [|split; [|apply str_lower_upper]].
  - intros st'. destruct found; simpl.
    + apply iter_contains_true in E.
      destruct E as (before & e & Hi & He & Hb). split.
      * intros [= <-]. exists before, e, rest0. auto.
      * intros (before' & e' & rest' & Hi' & He' & Hb' & ->).
        assert (Ht : iter_contains (str_lower (languageCode a)) items
                     = (true, rest'))
          by (apply iter_contains_true; exists before', e'; auto).
        assert (Ht0 : iter_contains (str_lower (languageCode a)) items
                      = (true, rest0))
          by (apply iter_contains_true; exists before, e; auto).
        rewrite Ht in Ht0. injection Ht0 as ->. reflexivity.
    + apply iter_contains_false in E. destruct E as [-> Hn].
      split; [discriminate|].
      intros (before & e & rest & -> & He & _).
      exfalso. apply (Hn e); [apply in_elt|exact He].
  - intros st'. destruct found; simpl.
    + apply iter_contains_true in E.
      destruct E as (before & e & -> & He & _).
      split; [discriminate|].
      intros [Hn _]. exfalso. apply (Hn e); [apply in_elt|exact He].
    + apply iter_contains_false in E. destruct E as [-> Hn]. split.
      * intros [= <-]. auto.
      * intros [_ ->]. reflexivity.
Qed.

Lemma language_test_on_remaining_items_witness :
  (forall st',
      language_skip (mkAsset "1_a" "EN-GB" SRT)
        (mkState (mkLoader demo_client (Some (setMediaEntry "0_abc123")) 2
                    demo_template (Some LANGUAGES_DEFAULT)) [])
      = (Return false, st') <->
      exists before e rest,
        LANGUAGES_DEFAULT = before ++ e :: rest
        /\ str_lower e = str_lower (languageCode (mkAsset "1_a" "EN-GB" SRT))
        /\ (forall b, In b before ->
              str_lower b
              <> str_lower (languageCode (mkAsset "1_a" "EN-GB" SRT)))
        /\ st' = set_languages (Some rest)
                   (mkState (mkLoader demo_client
                               (Some (setMediaEntry "0_abc123")) 2
                               demo_template (Some LANGUAGES_DEFAULT)) []))
  /\ (forall st',
         language_skip (mkAsset "1_a" "EN-GB" SRT)
           (mkState (mkLoader demo_client (Some (setMediaEntry "0_abc123")) 2
                       demo_template (Some LANGUAGES_DEFAULT)) [])
         = (Return true, st') <->
         (forall b, In b LANGUAGES_DEFAULT ->
            str_lower b
            <> str_lower (languageCode (mkAsset "1_a" "EN-GB" SRT)))
         /\ st' = set_languages (Some [])
                    (mkState (mkLoader demo_client
                                (Some (setMediaEntry "0_abc123")) 2
                                demo_template (Some LANGUAGES_DEFAULT)) []))
  /\ str_lower (str_upper (languageCode (mkAsset "1_a" "EN-GB" SRT)))
     = str_lower (languageCode (mkAsset "1_a" "EN-GB" SRT)).
Proof.
  apply (language_test_on_remaining_items (mkAsset "1_a" "EN-GB" SRT)
           (mkState (mkLoader demo_client (Some (setMediaEntry "0_abc123")) 2
                       demo_template (Some LANGUAGES_DEFAULT)) [])
           LANGUAGES_DEFAULT).
  - reflexivity.
  - repeat constructor.
  - reflexivity.
Defined.

(** ** Further properties: a loader without an allow-list *)

Section AllLanguages.
Variable env : Env.
Variable fuel : nat.

Lemma chunk_asset_log (e : KalturaMediaEntry) (a : KalturaCaptionAsset)
    (docs r : list Document) (st st' : State) :
  chunk_asset env fuel e a docs st = (Return r, st') ->
  self st' = self st
  /\ exists cs, calls st' = calls st ++ cs
                /\ filter is_getUrl cs = [CallGetUrl (asset_id a)].
Proof.
  unfold chunk_asset, bind, remote, get_self, lift.
  destruct (captionAsset_getUrl env _ _) as [url|x]; [|discriminate].
  destruct (requests_get_text env url) as [src|x]; [|discriminate].
  simpl. intros [= _ <-]. simpl. split; [reflexivity|].
  exists [CallGetUrl (asset_id a); CallRequestsGet url; CallFromString src].
  rewrite <- !app_assoc. split; reflexivity.
Qed.

Lemma for_captionAssets_all_languages (e : KalturaMediaEntry)
    (assets : list KalturaCaptionAsset) :
  forall docs r st st',
    languages (self st) = None ->
    for_captionAssets env fuel e assets docs st = (Return r, st') ->
    self st' = self st
    /\ exists cs, calls st' = calls st ++ cs
                  /\ filter is_getUrl cs = srt_getUrl_calls assets.
Proof.
  induction assets as [|a rest IH]; intros docs r st st' Hn; simpl.
  - intros [= _ <-]. split; [reflexivity|]. exists [].
    now rewrite app_nil_r.
  - unfold bind at 1. rewrite (language_skip_None a st Hn).
    unfold srt_getUrl_calls. simpl filter.
    destruct (caption_type_eqb (format a) SRT).
    + unfold bind.
      destruct (chunk_asset env fuel e a docs st) as [[d|x|] st1] eqn:Ec;
        try discriminate.
      apply chunk_asset_log in Ec. destruct Ec as (Hs1 & cs1 & Hc1 & Hf1).
      intros H. apply IH in H; [|now rewrite Hs1].
      destruct H as (Hs2 & cs2 & Hc2 & Hf2).
      split; [congruence|]. exists (cs1 ++ cs2).
      rewrite Hc2, Hc1, <- app_assoc. split; [reflexivity|].
      rewrite filter_app, Hf1, Hf2. reflexivity.
    + intros H. apply IH in H; [|exact Hn]. exact H.
Qed.

End AllLanguages.

(** X17: without an allow-list ([languages] is [None]), a media entry whose
    processing returns has had every SRT caption asset of its listing
    resolved exactly once, in the order of the listing, and no asset of
    another format resolved; [self] is as before. *)
Theorem all_languages_resolves_every_SRT_asset :
  forall (env : Env) (fuel : nat) (mediaEntry : KalturaMediaEntry)
         (st st' : State) (r : list Document),
    languages (self st) = None ->
    fetchMediaCaption env fuel mediaEntry st = (Return r, st') ->
    self st' = self st
    /\ exists assets cs,
         captionAsset_list env (client (self st)) (entry_id mediaEntry)
           = Ok assets
         /\ calls st'
            = calls st ++ CallCaptionAssetList (entry_id mediaEntry) :: cs
         /\ filter is_getUrl cs = srt_getUrl_calls assets.
Proof.
  intros env fuel e st st' r Hn. unfold fetchMediaCaption, bind, remote.
  destruct (captionAsset_list env (client (self st)) (entry_id e))
    as [assets|x] eqn:Ea; [|discriminate].
  intros H. apply for_captionAssets_all_languages in H; [|exact Hn].
  destruct H as (Hs & cs & Hc & Hf). simpl in Hs, Hc.
  split; [exact Hs|]. exists assets, cs.
  split; [reflexivity|]. split; [|exact Hf].
  rewrite Hc, <- app_assoc. reflexivity.
Qed.

Lemma all_languages_resolves_every_SRT_asset_witness :
  exists r st',
    fetchMediaCaption demo_env 4 demo_entry (mkState demo_loader [])
      = (Return r, st')
    /\ self st' = demo_loader
    /\ exists assets cs,
         captionAsset_list demo_env (client demo_loader)
           (entry_id demo_entry) = Ok assets
         /\ calls st' = [] ++ CallCaptionAssetList (entry_id demo_entry) :: cs
         /\ filter is_getUrl cs = srt_getUrl_calls assets.
Proof.
  assert (E : exists r st',
             fetchMediaCaption demo_env 4 demo_entry (mkState demo_loader [])
             = (Return r, st'))
    by (do 2 eexists; reflexivity).
  destruct E as (r & st' & E). exists r, st'. split; [exact E|].
  exact (all_languages_resolves_every_SRT_asset demo_env 4 demo_entry
           (mkState demo_loader []) st' r eq_refl E).
Defined.

(** ** The chunks of a track, and which assets contribute them *)

Lemma make_document_chunk_of (tmpl : string) (e : KalturaMediaEntry)
    (a : KalturaCaptionAsset) (sec : list SubRipItem) (doc : Document) :
  sec <> [] ->
  make_document tmpl e a sec (first_start sec) = Ok doc ->
  chunk_of tmpl e sec doc /\ doc_from e a doc.
Proof.
  intros Hne H. split.
  - destruct sec as [|first more]; [congruence|].
    exists first, more. split; [reflexivity|].
    apply make_document_Ok in H.
    destruct H as (Hsrc & Htext & Hts & _). auto.
  - eapply make_document_from. exact H.
Qed.

Lemma emit_chunks (tmpl : string) (e : KalturaMediaEntry)
    (a : KalturaCaptionAsset) (secs : list (list SubRipItem))
    (ds : list Document) :
  Forall (fun s => s <> []) secs ->
  emit tmpl e a secs [] = Return ds ->
  Forall2 (fun sec doc => chunk_of tmpl e sec doc /\ doc_from e a doc)
    secs ds.
Proof.
  intros Hne H.
  destruct (emit_outcome tmpl e a secs [])
    as [(ds' & Hr & Hf)|(x & sec & _ & _ & Hr)];
    [|rewrite Hr in H; discriminate].
  rewrite Hr in H. injection H as <-. simpl.
  eapply Forall2_impl; [|exact (Forall2_with_Forall _ _ _ _ Hne Hf)].
  intros sec doc [Hsec Hd]. now apply make_document_chunk_of.
Qed.

(** With a template of literal text and the two fields nothing is raised. *)
Lemma emit_plain_template (ps : list piece) (e : KalturaMediaEntry)
    (a : KalturaCaptionAsset) (secs : list (list SubRipItem)) :
  exists ds, emit (template_text ps) e a secs [] = Return ds.
Proof.
  destruct (emit_outcome (template_text ps) e a secs [])
    as [(ds & Hr & _)|(x & sec & _ & He & _)].
  - exists ds. exact Hr.
  - apply make_document_Err in He. rewrite str_format_pieces in He.
    discriminate.
Qed.

Lemma sections_nil_iff (D : Z) (captions : list SubRipItem) (fuel : nat)
    (secs : list (list SubRipItem)) :
  sections fuel D captions 0 = Some secs ->
  (secs = [] <-> captionsSection D captions 0 = []).
Proof.
  intros H. destruct fuel as [|fuel]; [discriminate|]. simpl in H.
  destruct (captionsSection D captions 0) as [|f more].
  - injection H as <-. tauto.
  - destruct (sections fuel D captions _); [|discriminate].
    injection H as <-. split; discriminate.
Qed.

(** An SRT asset whose caption file starts at 0:00.000 with its only cue:
    it passes the language test, is resolved and chunked, and contributes no
    chunk. *)
Lemma SRT_asset_may_contribute_nothing :
  language_skip demo_asset (mkState demo_loader [])
    = (Return false, mkState demo_loader [])
  /\ format demo_asset = SRT
  /\ fst (for_captionAssets zero_env 4 demo_entry [demo_asset] []
            (mkState demo_loader [])) = Return []
  /\ ~ contributes_chunks zero_env 4 demo_entry demo_asset
         (mkState demo_loader [])
  /\ ~ (contributes_chunks zero_env 4 demo_entry demo_asset
          (mkState demo_loader [])
        <-> format demo_asset = SRT).
Proof.
  assert (Hno : ~ contributes_chunks zero_env 4 demo_entry demo_asset
                    (mkState demo_loader [])).
  { intros (r & st' & d & H & Hin). vm_compute in H.
    injection H as <- _. destruct Hin. }
  split; [reflexivity|]. split; [reflexivity|]. split; [reflexivity|].
  split; [exact Hno|].
  intros [_ H]. apply Hno. apply H. reflexivity.
Qed.

(** C6 (as the code has it): for an asset that passes the language test.
    With a format other than SRT the asset is dropped: the loop goes on to
    the remaining assets with the same documents, no collaborator called and
    nothing raised.  With the SRT format the asset is resolved and chunked:
    when location resolution and the fetch answer, the chunk duration is
    positive and the URL template is literal text and the two fields, the
    loop goes on with one document appended for each cue set the chunk loop
    met, each carrying the asset's id and language code.  The asset
    contributes at least one chunk exactly when its first window selects a
    cue: an SRT asset may contribute none. *)
Theorem format_test_selects_SRT_assets :
  forall (env : Env) (fuel : nat) (mediaEntry : KalturaMediaEntry)
         (captionAsset : KalturaCaptionAsset)
         (rest : list KalturaCaptionAsset) (docs : list Document)
         (st st' : State),
    language_skip captionAsset st = (Return false, st') ->
    (format captionAsset <> SRT ->
       for_captionAssets env fuel mediaEntry (captionAsset :: rest) docs st
       = for_captionAssets env fuel mediaEntry rest docs st')
    /\ (format captionAsset = SRT ->
        forall (captionUrl captionSource : string) (ps : list piece),
          captionAsset_getUrl env (client (self st'))
            (asset_id captionAsset) = Ok captionUrl ->
          requests_get_text env captionUrl = Ok captionSource ->
          urlTemplate (self st') = template_text ps ->
          0 < chunkMinutes (self st') ->
          (enough_fuel (chunkMinutes (self st'))
             (from_string env captionSource) <= fuel)%nat ->
          exists secs new,
            sections fuel (chunkMinutes (self st'))
              (from_string env captionSource) 0 = Some secs
            /\ Forall2 (fun sec doc =>
                          chunk_of (urlTemplate (self st')) mediaEntry sec doc
                          /\ doc_from mediaEntry captionAsset doc) secs new
            /\ (new = [] <->
                captionsSection (chunkMinutes (self st'))
                  (from_string env captionSource) 0 = [])
            /\ for_captionAssets env fuel mediaEntry (captionAsset :: rest)
                 docs st
               = for_captionAssets env fuel mediaEntry rest (docs ++ new)
                   (logged st' [CallGetUrl (asset_id captionAsset);
                                CallRequestsGet captionUrl;
                                CallFromString captionSource])).
Proof.
  intros env fuel e a rest docs st st' Hpass. split.
  - intros Hfmt. simpl. unfold bind at 1. rewrite Hpass.
    destruct (caption_type_eqb (format a) SRT) eqn:E; [|reflexivity].
    apply caption_type_eqb_eq in E. contradiction.
  - intros Hfmt url src ps Hurl Hsrc Htmpl HD Hfuel.
    destruct (sections_terminate _ _ fuel HD Hfuel) as [secs Hs].
    destruct (sections_shape _ _ _ _ _ Hs) as (_ & Hne & _).
    destruct (emit_plain_template ps e a secs) as [new Hemit].
    rewrite <- Htmpl in Hemit.
    exists secs, new. split; [exact Hs|].
    split; [now apply emit_chunks|].
    split.
    + rewrite <- (sections_nil_iff _ _ _ _ Hs).
      pose proof (emit_chunks _ _ _ _ _ Hne Hemit) as Hf2.
      split; intros ->; inversion Hf2; reflexivity.
    + simpl. unfold bind at 1. rewrite Hpass, Hfmt. cbn [caption_type_eqb].
      unfold bind at 1.
      unfold chunk_asset, bind, remote, get_self, lift. cbn [self calls].
      rewrite Hurl, Hsrc. cbn [self calls].
      rewrite chunk_while_acc, (chunk_while_emit _ _ _ _ _ _ _ _ [] Hs), Hemit.
      cbn [prepend_o]. unfold logged. rewrite <- !app_assoc. reflexivity.
Qed.

Lemma format_test_selects_SRT_assets_witness :
  for_captionAssets demo_env 4 demo_entry
    [mkAsset "1_w" "en" WEBVTT; demo_asset] [] (mkState demo_loader [])
  = for_captionAssets demo_env 4 demo_entry [demo_asset] []
      (mkState demo_loader [])
  /\ exists secs new,
       sections 4 2 three_cue_track 0 = Some secs
       /\ Forall2 (fun sec doc =>
                     chunk_of demo_template demo_entry sec doc
                     /\ doc_from demo_entry demo_asset doc) secs new
       /\ (new = [] <-> captionsSection 2 three_cue_track 0 = [])
       /\ for_captionAssets demo_env 4 demo_entry [demo_asset] []
            (mkState demo_loader [])
          = for_captionAssets demo_env 4 demo_entry [] ([] ++ new)
              (logged (mkState demo_loader [])
                 [CallGetUrl "1_cap";
                  CallRequestsGet "https://cdn.test/1_cap";
                  CallFromString "srt of https://cdn.test/1_cap"]).
Proof.
  split.
  - apply (proj1 (format_test_selects_SRT_assets demo_env 4 demo_entry
                    (mkAsset "1_w" "en" WEBVTT) [demo_asset] []
                    (mkState demo_loader []) (mkState demo_loader [])
                    eq_refl)).
    discriminate.
  - apply (proj2 (format_test_selects_SRT_assets demo_env 4 demo_entry
                    demo_asset [] [] (mkState demo_loader [])
                    (mkState demo_loader []) eq_refl)
             eq_refl "https://cdn.test/1_cap"
             "srt of https://cdn.test/1_cap" demo_pieces).
    + reflexivity.
    + reflexivity.
    + reflexivity.
    + simpl. lia.
    + vm_compute. lia.
Defined.

(** Cues at 0:30 and 5:00 with two-minute chunks: window 2 selects the cue
    at 5:00, and the one document the loop returns is not its chunk. *)
Lemma window_after_gap_has_no_chunk :
  0 < 2
  /\ captionsSection 2 gap_track 2 = [mkItem 300000 302000 "after the gap"]
  /\ exists doc,
       chunk_while (enough_fuel 2 gap_track) 2 demo_template demo_entry
         demo_asset gap_track 0 [] = Return [doc]
       /\ ~ every_nonempty_window_emitted 2 gap_track demo_template
              demo_entry [doc].
Proof.
  split; [lia|]. split; [reflexivity|].
  eexists. split; [vm_compute; reflexivity|].
  intros H. destruct (H 2) as (d & Hin & first & more & Hsec & Htext & _).
  - lia.
  - vm_compute. discriminate.
  - vm_compute in Hsec. injection Hsec as <- <-.
    destruct Hin as [<-|[]]. vm_compute in Htext. discriminate.
Qed.

(** C8 (as the code has it): with a positive chunk duration the loop ends
    at the first window [k] whose selection is empty, and the documents it
    returns are, in order, the chunks of the windows [0 .. k-1] it reached,
    all of them non-empty: the text of each is the texts of the selected
    cues in track order joined by the subtitle library's [text] join (a
    newline), and its start, shown in [timestamp] without milliseconds and
    in [source] in whole seconds, is the start of the first selected cue.
    With a URL template of literal text and the two fields the loop returns.
    A non-empty window after the first empty one has no chunk. *)
Theorem reached_windows_chunk_text_and_start :
  forall (fuel : nat) (D : Z) (mediaEntry : KalturaMediaEntry)
         (captionAsset : KalturaCaptionAsset) (captions : list SubRipItem),
    0 < D ->
    (enough_fuel D captions <= fuel)%nat ->
    exists k : nat,
      captionsSection D captions (Z.of_nat k) = []
      /\ Forall (fun s => s <> []) (windows_upto D captions k)
      /\ (forall urlTemplate_ docs,
             chunk_while fuel D urlTemplate_ mediaEntry captionAsset
               captions 0 [] = Return docs ->
             Forall2 (chunk_of urlTemplate_ mediaEntry)
               (windows_upto D captions k) docs)
      /\ (forall ps, exists docs,
             chunk_while fuel D (template_text ps) mediaEntry captionAsset
               captions 0 [] = Return docs).
Proof.
  intros fuel D e a captions HD Hfuel.
  destruct (sections_terminate D captions fuel HD Hfuel) as [secs Hs].
  destruct (Forall_nonempty_map_indices D captions fuel secs Hs)
    as (Hm & Hne & Hend).
  exists (List.length secs). unfold windows_upto. rewrite <- Hm.
  split; [exact Hend|]. split; [exact Hne|]. split.
  - intros tmpl docs H.
    rewrite (chunk_while_emit D tmpl e a captions fuel 0 secs [] Hs) in H.
    eapply Forall2_impl; [|exact (emit_chunks _ _ _ _ _ Hne H)].
    intros sec doc [Hc _]. exact Hc.
  - intros ps.
    rewrite (chunk_while_emit D (template_text ps) e a captions fuel 0 secs
               [] Hs).
    apply emit_plain_template.
Qed.

Lemma reached_windows_chunk_text_and_start_witness :
  exists k : nat,
    captionsSection 2 three_cue_track (Z.of_nat k) = []
    /\ Forall (fun s => s <> []) (windows_upto 2 three_cue_track k)
    /\ (forall urlTemplate_ docs,
           chunk_while 4 2 urlTemplate_ demo_entry demo_asset
             three_cue_track 0 [] = Return docs ->
           Forall2 (chunk_of urlTemplate_ demo_entry)
             (windows_upto 2 three_cue_track k) docs)
    /\ (forall ps, exists docs,
           chunk_while 4 2 (template_text ps) demo_entry demo_asset
             three_cue_track 0 [] = Return docs).
Proof.
  apply (reached_windows_chunk_text_and_start 4 2 demo_entry demo_asset
           three_cue_track).
  - lia.
  - vm_compute. lia.
Defined.
